(** * halooglasi-scraper: the rating engine and the scraper's pure helpers

    A shallow embedding of [src/rater.js], of its second version
    [src/unnamed/part_000] and of the pure functions of [src/scraper.js],
    followed by the properties the specification states about them.

    Numbers.  A JavaScript number is a binary64 value; [Num q] is the number
    whose exact value is the rational [q].  The model computes with exact
    arithmetic.  It agrees with the program wherever the program's
    operation is exact on its operands: comparisons, the sign of a
    difference, integers below 2^53, a quotient [x / x].  Elsewhere the
    program's result is the model's rounded to binary64.  A property that
    would not survive that rounding states the range in which nothing is
    rounded as a hypothesis, or is stated for every value the rounding can
    give.  The infinities are not modelled.  Every quotient the code
    computes has a divisor the code has tested to be truthy (hence
    non-zero) first.

    Strings.  A string is a sequence of code units; the model covers the code
    units below 256. *)

From Stdlib Require Import ZArith QArith Qround Qabs String Ascii List Lia.
From Stdlib Require Import Permutation Sorted DecimalString Lqa.
From stdpp Require Import gmap strings list sorting.

Local Open Scope Q_scope.

(** ** The JavaScript runtime the sources rely on *)

Module JS.

(** What a numeric property of a listing can hold. *)
Inductive value : Type :=
| Undefined
| Null
| NaN
| Num (q : Q).

(** [ToBoolean]: [undefined], [null], [NaN] and [0] are falsy. *)
Definition truthy (v : value) : bool :=
  match v with
  | Num q => negb (Qeq_bool q 0)
  | _ => false
  end.

(** [ToNumber]; [None] stands for [NaN]. *)
Definition toNumber (v : value) : option Q :=
  match v with
  | Undefined | NaN => None
  | Null => Some 0
  | Num q => Some q
  end.

Definition arith (f : Q -> Q -> Q) (a b : value) : value :=
  match toNumber a, toNumber b with
  | Some x, Some y => Num (f x y)
  | _, _ => NaN
  end.

Definition add : value -> value -> value := arith Qplus.
Definition sub : value -> value -> value := arith Qminus.
Definition mul : value -> value -> value := arith Qmult.

(** [a / b], the exact quotient: the program's quotient is this one rounded
    to binary64, the same number when the quotient is a binary64 value (as
    [x / x] is).  A zero divisor gives an infinity (or [NaN]) in
    JavaScript; the model has no infinities and answers [NaN].  The sources
    divide by truthy values only. *)
Definition div (a b : value) : value :=
  match toNumber a, toNumber b with
  | Some x, Some y => if Qeq_bool y 0 then NaN else Num (x / y)
  | _, _ => NaN
  end.

Definition Qltb (x y : Q) : bool := negb (Qle_bool y x).

(** Relational operators: any comparison with [NaN] is false. *)
Definition le (a b : value) : bool :=
  match toNumber a, toNumber b with
  | Some x, Some y => Qle_bool x y
  | _, _ => false
  end.

Definition lt (a b : value) : bool :=
  match toNumber a, toNumber b with
  | Some x, Some y => Qltb x y
  | _, _ => false
  end.

Definition gt (a b : value) : bool := lt b a.

(** [a || b] *)
Definition or_else (a b : value) : value := if truthy a then a else b.

(** [Math.round]: to the nearest integer, halves upwards. *)
Definition round (v : value) : value :=
  match toNumber v with
  | Some q => Num (inject_Z (Qfloor (q + (1 # 2))))
  | None => NaN
  end.

Definition abs (v : value) : value :=
  match toNumber v with
  | Some q => Num (Qabs q)
  | None => NaN
  end.

(** [arr[i]]: [undefined] outside the array. *)
Definition index (arr : list value) (i : Z) : value :=
  if (i <? 0)%Z then Undefined
  else match nth_error arr (Z.to_nat i) with
       | Some v => v
       | None => Undefined
       end.

(** [Array.prototype.sort(comparefn)].  The language requires a stable
    sort; which one is left to the engine, and all of them agree when
    [comparefn] is a consistent ordering.  When it is not, the order of the
    result is the engine's own.  [sort] below is the stable insertion sort:
    an element goes in front of the first element of the sorted rest that
    [comparefn] does not put before it.  A [NaN] answer of [comparefn]
    counts as [0].  The sources sort numbers with [(a, b) => a - b], a
    consistent ordering, and the rated listings with a comparator that is
    not always one: the order of that result is stated for every engine
    ([sortEngine] below). *)
Section Sort.
Context {A : Type} (comparefn : A -> A -> value).

Definition after (x y : A) : bool := gt (comparefn x y) (Num 0).

(** [comparefn(x, y) < 0], and [comparefn(x, y)] neither below nor above 0. *)
Definition before (x y : A) : bool := lt (comparefn x y) (Num 0).

Definition level (x y : A) : bool := negb (before x y) && negb (after x y).

Fixpoint insert (x : A) (l : list A) : list A :=
  match l with
  | [] => [x]
  | h :: t => if after x h then h :: insert x t else x :: h :: t
  end.

Fixpoint sort (l : list A) : list A :=
  match l with
  | [] => []
  | x :: t => insert x (sort t)
  end.
End Sort.

(** The [Array.prototype.sort] of an engine, on arrays of any elements. *)
Definition sortEngine : Type := forall A : Type, (A -> A -> value) -> list A -> list A.

(** The insertion sort above as an engine. *)
Definition insertionSort : sortEngine := fun A => @sort A.

(** [arr.join(sep)] on an array of strings. *)
Definition join (sep : string) (arr : list string) : string :=
  String.concat sep arr.

(** *** Strings *)

(** [\s], [trim] and the number parsers skip the same characters; below 256
    these are tab, the line terminators, space and the no-break space. *)
Definition isWhiteSpace (c : ascii) : bool :=
  let n := N_of_ascii c in
  ((9 <=? n) && (n <=? 13) || (n =? 32) || (n =? 160))%N.

(** [\d] *)
Definition isDigit (c : ascii) : bool :=
  let n := N_of_ascii c in ((48 <=? n) && (n <=? 57))%N.

Definition digitValue (c : ascii) : Z := Z.of_N (N_of_ascii c) - 48.

(** A hexadecimal digit and its value. *)
Definition hexValue (c : ascii) : option Z :=
  let n := N_of_ascii c in
  if isDigit c then Some (Z.of_N n - 48)%Z
  else if ((97 <=? n) && (n <=? 102))%N then Some (Z.of_N n - 87)%Z
  else if ((65 <=? n) && (n <=? 70))%N then Some (Z.of_N n - 55)%Z
  else None.

Fixpoint takeWhile (p : ascii -> bool) (s : string) : string :=
  match s with
  | String c r => if p c then String c (takeWhile p r) else EmptyString
  | EmptyString => EmptyString
  end.

Fixpoint dropWhile (p : ascii -> bool) (s : string) : string :=
  match s with
  | String c r => if p c then dropWhile p r else s
  | EmptyString => EmptyString
  end.

(** [s.replace(/p/g, '')] for a one-character pattern [p]. *)
Fixpoint removeAll (p : ascii -> bool) (s : string) : string :=
  match s with
  | String c r => if p c then removeAll p r else String c (removeAll p r)
  | EmptyString => EmptyString
  end.

(** [s.replace(/a/g, b)] for characters [a] and [b]. *)
Fixpoint replaceAll (a b : ascii) (s : string) : string :=
  match s with
  | String c r => String (if Ascii.eqb c a then b else c) (replaceAll a b r)
  | EmptyString => EmptyString
  end.

(** [s.replace(a, b)] with a string pattern of one character: the first
    occurrence only. *)
Fixpoint replaceFirst (a b : ascii) (s : string) : string :=
  match s with
  | String c r => if Ascii.eqb c a then String b r else String c (replaceFirst a b r)
  | EmptyString => EmptyString
  end.

Fixpoint reverse (acc s : string) : string :=
  match s with
  | String c r => reverse (String c acc) r
  | EmptyString => acc
  end.

(** [s.trim()] *)
Definition trim (s : string) : string :=
  reverse EmptyString
    (dropWhile isWhiteSpace (reverse EmptyString (dropWhile isWhiteSpace s))).

(** [s.match(/([p]+)/)] for a character class [p]: the first maximal run,
    [None] when no character is in the class. *)
Fixpoint firstRun (p : ascii -> bool) (s : string) : option string :=
  match s with
  | String c r => if p c then Some (takeWhile p s) else firstRun p r
  | EmptyString => None
  end.

(** [s] without the prefix [pre], when it starts with it. *)
Fixpoint stripPrefix (pre s : string) : option string :=
  match pre, s with
  | EmptyString, _ => Some s
  | String a pre', String c r => if Ascii.eqb a c then stripPrefix pre' r else None
  | String _ _, EmptyString => None
  end.

(** The number a run of decimal digits denotes. *)
Fixpoint decimalFrom (acc : Z) (s : string) : Z :=
  match s with
  | String c r => decimalFrom (10 * acc + digitValue c) r
  | EmptyString => acc
  end.

Definition decimal (s : string) : Z := decimalFrom 0 s.

(** The longest prefix of hexadecimal digits, as a number; [None] when
    there is none. *)
Fixpoint hexFrom (acc : option Z) (s : string) : option Z :=
  match s with
  | String c r =>
      match hexValue c with
      | Some d => hexFrom (Some (16 * default 0%Z acc + d)%Z) r
      | None => acc
      end
  | EmptyString => acc
  end.

(** An optional sign: is it [-], and the rest. *)
Definition readSign (s : string) : bool * string :=
  match s with
  | String c r =>
      if Ascii.eqb c "-" then (true, r)
      else if Ascii.eqb c "+" then (false, r)
      else (false, s)
  | EmptyString => (false, s)
  end.

Definition signed (negative : bool) (z : Z) : Z := if negative then (- z)%Z else z.

(** [10^e] as a number, for any integer [e]. *)
Definition pow10 (e : Z) : Q :=
  if (0 <=? e)%Z then inject_Z (10 ^ e) else / inject_Z (10 ^ (- e)).

(** The exponent part [e±ddd] at the head of [s], [0] when there is none
    (an [e] with no digit after it is not part of the number). *)
Definition readExponent (s : string) : Z :=
  match s with
  | String c r =>
      if Ascii.eqb c "e" || Ascii.eqb c "E" then
        let '(negative, r) := readSign r in
        let ds := takeWhile isDigit r in
        if String.eqb ds EmptyString then 0%Z else signed negative (decimal ds)
      else 0%Z
  | EmptyString => 0%Z
  end.

(** [parseFloat(s)]: leading white space, then the longest prefix that is a
    decimal literal; [NaN] when there is none.  The result is the exact
    value of the literal: the program's is that value rounded to binary64,
    the same number for an integer below 2^53.  The literal [Infinity] is
    outside the model. *)
Definition parseFloat (s : string) : value :=
  let s := dropWhile isWhiteSpace s in
  let '(negative, s) := readSign s in
  let int := takeWhile isDigit s in
  let s := dropWhile isDigit s in
  let '(frac, s) :=
    match s with
    | String c r =>
        if Ascii.eqb c "." then (takeWhile isDigit r, dropWhile isDigit r)
        else (EmptyString, s)
    | EmptyString => (EmptyString, s)
    end in
  if String.eqb int EmptyString && String.eqb frac EmptyString then NaN
  else
    let mantissa := signed negative (decimal (int ++ frac)) in
    Num (inject_Z mantissa * pow10 (readExponent s - Z.of_nat (String.length frac))).

(** [parseInt(s)] with no radix: leading white space, a sign, [0x] for
    hexadecimal, then the longest prefix of digits; [None] is [NaN].  The
    result is the integer the digits spell: the program's is that integer
    rounded to binary64, the same number below 2^53. *)
Definition parseInt (s : string) : option Z :=
  let s := dropWhile isWhiteSpace s in
  let '(negative, s) := readSign s in
  let hex :=
    match stripPrefix "0x" s with
    | Some r => Some r
    | None => stripPrefix "0X" s
    end in
  match hex with
  | Some r => signed negative <$> hexFrom None r
  | None =>
      let ds := takeWhile isDigit s in
      if String.eqb ds EmptyString then None
      else Some (signed negative (decimal ds))
  end.

End JS.

(** ** The data model *)

(** A listing as [parseListings] builds it. *)
Module Listing.
Record t : Type := mk {
  id : string;
  title : string;
  link : string;
  price : JS.value;
  pricePerSqm : JS.value;
  sqm : JS.value;
  landSqm : JS.value;
  rooms : option string;
  image : string;
  imgCount : Z;
  location : string;
  neighborhood : string;
  slug : string
}.
End Listing.

(** A rated listing: [{ ...listing, rating, label, ratingReason, ... }].
    The fields a path does not set are [undefined] ([None] for the two
    arrays). *)
Module Rated.
Record t : Type := mk {
  listing : Listing.t;
  rating : Z;
  label : string;
  ratingReason : string;
  ratingPros : option (list string);
  ratingCons : option (list string);
  medianPPS : JS.value
}.

Definition pricePerSqm (r : t) : JS.value := Listing.pricePerSqm (listing r).
Definition price (r : t) : JS.value := Listing.price (listing r).
End Rated.

(** Per-neighbourhood statistics: [{ median, p25, count }]. *)
Record NStats : Type := mkNStats {
  median : JS.value;
  p25 : JS.value;
  count : nat
}.

(** ** [src/rater.js] *)

Module Rater.
Import JS.

(** [percentile(sorted, p)], rater.js lines 147-154. *)
Definition percentile (sorted : list value) (p : Q) : value :=
  if Nat.eqb (length sorted) 0 then Num 0
  else
    let idx := (p / 100) * (inject_Z (Z.of_nat (length sorted)) - 1) in
    let lower := Qfloor idx in
    let upper := Qceiling idx in
    if (lower =? upper)%Z then index sorted lower
    else add (index sorted lower)
             (mul (sub (index sorted upper) (index sorted lower))
                  (Num (idx - inject_Z lower))).

(** The comparator of the final [rated.sort(...)], rater.js lines 137-142. *)
Definition compareRated (a b : Rated.t) : value :=
  if negb (Rated.rating b =? Rated.rating a)%Z
  then Num (inject_Z (Rated.rating b - Rated.rating a))
  else if truthy (Rated.pricePerSqm a) && truthy (Rated.pricePerSqm b)
  then sub (Rated.pricePerSqm a) (Rated.pricePerSqm b)
  else if truthy (Rated.price a) && truthy (Rated.price b)
  then sub (Rated.price a) (Rated.price b)
  else Num 0.

(** [l => l.price && l.price > 0] and [l => l.pricePerSqm && l.pricePerSqm > 0] *)
Definition hasPrice (l : Listing.t) : bool :=
  truthy (Listing.price l) && gt (Listing.price l) (Num 0).

Definition hasPPS (l : Listing.t) : bool :=
  truthy (Listing.pricePerSqm l) && gt (Listing.pricePerSqm l) (Num 0).

(** The result for a listing when nothing has a price, line 20. *)
Definition unrated (l : Listing.t) : Rated.t :=
  {| Rated.listing := l;
     Rated.rating := 5;
     Rated.label := EmptyString;
     Rated.ratingReason := "No price data available for comparison";
     Rated.ratingPros := None;
     Rated.ratingCons := None;
     Rated.medianPPS := Undefined |}.

(** First loop over [withPPS], lines 35-41: the prices per m² of every
    neighbourhood, in the order met.  The object is keyed by the display
    names of the areas; the names [Object.prototype] defines are not
    modelled. *)
Definition collectPPS (withPPS : list Listing.t) : gmap string (list value) :=
  fold_left
    (fun (neighborhoodStats : gmap string (list value)) listing =>
       let key := Listing.neighborhood listing in
       let neighborhoodStats :=
         match neighborhoodStats !! key with
         | None => <[key := []]> neighborhoodStats
         | Some _ => neighborhoodStats
         end in
       alter (fun arr => arr ++ [Listing.pricePerSqm listing]) key neighborhoodStats)
    withPPS ∅.

Section WithRuntime.
(** [percentile] is a parameter of the body so that a path can be shown
    not to depend on it; [rateListings] below passes the real one. *)
Variable pctl : list value -> Q -> value.
(** [String(n)] for a number, as a template literal applies it: the digits
    it prints belong to the double and are not modelled. *)
Variable numberToString : value -> string.

(** Second loop, lines 42-49. *)
Definition summarize (arr : list value) : NStats :=
  let sorted := sort sub arr in
  {| median := pctl sorted 50;
     p25 := pctl sorted 25;
     count := length sorted |}.

(** The callback of [listings.map], lines 52-134, block by block; [score]
    and [reasons] are what the blocks update. *)

(** Lines 56-112: the price against the medians. *)
Definition ratePrice (medianPPS medianPrice : value)
    (neighborhoodStats : gmap string NStats) (listing : Listing.t)
    (score : Z) (reasons : list string) : Z * list string :=
  if truthy (Listing.pricePerSqm listing)
     && gt (Listing.pricePerSqm listing) (Num 0) && truthy medianPPS
  then
    let ratio := div (Listing.pricePerSqm listing) medianPPS in
    let below :=
      ("€/m² is "
         ++ numberToString (round (mul (sub (Num 1) ratio) (Num 100)))
         ++ "% below median")%string in
    let '(score, reasons) :=
      if le ratio (Num 0.4) then (10%Z, reasons ++ [below])
      else if le ratio (Num 0.55) then (9%Z, reasons ++ [below])
      else if le ratio (Num 0.7) then (8%Z, reasons ++ [below])
      else if le ratio (Num 0.85)
      then (7%Z, reasons ++ ["€/m² well below median"%string])
      else if le ratio (Num 1.0)
      then (6%Z, reasons ++ ["€/m² slightly below median"%string])
      else if le ratio (Num 1.15)
      then (5%Z, reasons ++ ["€/m² near median"%string])
      else if le ratio (Num 1.3)
      then (4%Z, reasons ++ ["€/m² above median"%string])
      else if le ratio (Num 1.5)
      then (3%Z, reasons ++ ["€/m² well above median"%string])
      else if le ratio (Num 1.8)
      then (2%Z, reasons ++ ["€/m² significantly above median"%string])
      else (1%Z, reasons ++ ["€/m² far above median"%string]) in
    (* Bonus: compare to neighborhood median *)
    match neighborhoodStats !! Listing.neighborhood listing with
    | Some nStats =>
        if truthy (median nStats) then
          let nRatio := div (Listing.pricePerSqm listing) (median nStats) in
          if le nRatio (Num 0.6)
          then (Z.min 10 (score + 1),
                reasons ++ [("Best price in " ++ Listing.neighborhood listing)%string])
          else (score, reasons)
        else (score, reasons)
    | None => (score, reasons)
    end
  else if truthy (Listing.price listing) && truthy medianPrice then
    (* Fallback: rate by total price only *)
    let ratio := div (Listing.price listing) medianPrice in
    let score :=
      if le ratio (Num 0.5) then 8%Z
      else if le ratio (Num 0.75) then 7%Z
      else if le ratio (Num 1.0) then 6%Z
      else if le ratio (Num 1.25) then 5%Z
      else if le ratio (Num 1.5) then 4%Z
      else 3%Z in
    (score, reasons ++ ["Rated by total price (no m² data)"%string])
  else (score, reasons ++ ["Insufficient price data"%string]).

(** Lines 114-121: bonus for having large land. *)
Definition rateLand (listing : Listing.t) (score : Z) (reasons : list string) :
    Z * list string :=
  if truthy (Listing.landSqm listing)
     && gt (Listing.landSqm listing) (Num 500) && truthy (Listing.price listing)
  then
    let landPriceRatio := div (Listing.price listing) (Listing.landSqm listing) in
    if lt landPriceRatio (Num 100)
    then (Z.min 10 (score + 1), reasons ++ ["Large land at low price"%string])
    else (score, reasons)
  else (score, reasons).

Definition rate (medianPPS medianPrice : value)
    (neighborhoodStats : gmap string NStats) (listing : Listing.t) : Rated.t :=
  let score := 5%Z in
  let reasons : list string := [] in
  let '(score, reasons) :=
    ratePrice medianPPS medianPrice neighborhoodStats listing score reasons in
  let '(score, reasons) := rateLand listing score reasons in
  let score := Z.max 1 (Z.min 10 score) in
  let label := if (9 <=? score)%Z then "MUST BUY"%string else EmptyString in
  {| Rated.listing := listing;
     Rated.rating := score;
     Rated.label := label;
     Rated.ratingReason := join ". " reasons;
     Rated.ratingPros := None;
     Rated.ratingCons := None;
     Rated.medianPPS := round (or_else medianPPS (Num 0)) |}.

(** The array [rated] before it is sorted, lines 23-134 (reached when
    some listing has a price). *)
Definition ratedBeforeSort (listings : list Listing.t) : list Rated.t :=
  let withPrice := List.filter hasPrice listings in
  let withPPS := List.filter hasPPS listings in
  let allPPS := sort sub (map Listing.pricePerSqm withPPS) in
  let medianPPS := if Nat.eqb (length allPPS) 0 then Null else pctl allPPS 50 in
  let p25PPS := if Nat.eqb (length allPPS) 0 then Null else pctl allPPS 25 in
  let p10PPS := if Nat.eqb (length allPPS) 0 then Null else pctl allPPS 10 in
  let p75PPS := if Nat.eqb (length allPPS) 0 then Null else pctl allPPS 75 in
  let allPrices := sort sub (map Listing.price withPrice) in
  let medianPrice := pctl allPrices 50 in
  let neighborhoodStats := summarize <$> collectPPS withPPS in
  map (rate medianPPS medianPrice neighborhoodStats) listings.

(** [rateListings(listings)], lines 12-145. *)
Definition rateListingsWith (listings : list Listing.t) : list Rated.t :=
  if Nat.eqb (length listings) 0 then []
  else
    let withPrice := List.filter hasPrice listings in
    if Nat.eqb (length withPrice) 0 then map unrated listings
    else sort compareRated (ratedBeforeSort listings).
End WithRuntime.

Definition rateListings : (value -> string) -> list Listing.t -> list Rated.t :=
  rateListingsWith percentile.

(** The same on any engine: [rateListings] with every [sort] of lines 24,
    31, 43 and 137 left to [engine].  The definitions above are these at
    the insertion sort. *)
Section WithEngine.
Variable engine : sortEngine.
Variable numberToString : value -> string.

Definition summarizeOn (arr : list value) : NStats :=
  let sorted := engine value sub arr in
  {| median := percentile sorted 50;
     p25 := percentile sorted 25;
     count := length sorted |}.

Definition ratedBeforeSortOn (listings : list Listing.t) : list Rated.t :=
  let withPrice := List.filter hasPrice listings in
  let withPPS := List.filter hasPPS listings in
  let allPPS := engine value sub (map Listing.pricePerSqm withPPS) in
  let medianPPS := if Nat.eqb (length allPPS) 0 then Null else percentile allPPS 50 in
  let p25PPS := if Nat.eqb (length allPPS) 0 then Null else percentile allPPS 25 in
  let p10PPS := if Nat.eqb (length allPPS) 0 then Null else percentile allPPS 10 in
  let p75PPS := if Nat.eqb (length allPPS) 0 then Null else percentile allPPS 75 in
  let allPrices := engine value sub (map Listing.price withPrice) in
  let medianPrice := percentile allPrices 50 in
  let neighborhoodStats := summarizeOn <$> collectPPS withPPS in
  map (rate numberToString medianPPS medianPrice neighborhoodStats) listings.

Definition rateListingsOn (listings : list Listing.t) : list Rated.t :=
  if Nat.eqb (length listings) 0 then []
  else
    let withPrice := List.filter hasPrice listings in
    if Nat.eqb (length withPrice) 0 then map unrated listings
    else engine Rated.t compareRated (ratedBeforeSortOn listings).
End WithEngine.

End Rater.

(** ** [src/unnamed/part_000]: the rater with the longer justification *)

Module RaterV2.
Import JS.

(** [percentile(sorted, p)], part_000 lines 185-192. *)
Definition percentile (sorted : list value) (p : Q) : value :=
  if Nat.eqb (length sorted) 0 then Num 0
  else
    let idx := (p / 100) * (inject_Z (Z.of_nat (length sorted)) - 1) in
    let lower := Qfloor idx in
    let upper := Qceiling idx in
    if (lower =? upper)%Z then index sorted lower
    else add (index sorted lower)
             (mul (sub (index sorted upper) (index sorted lower))
                  (Num (idx - inject_Z lower))).

(** The comparator of the final sort, lines 175-180. *)
Definition compareRated (a b : Rated.t) : value :=
  if negb (Rated.rating b =? Rated.rating a)%Z
  then Num (inject_Z (Rated.rating b - Rated.rating a))
  else if truthy (Rated.pricePerSqm a) && truthy (Rated.pricePerSqm b)
  then sub (Rated.pricePerSqm a) (Rated.pricePerSqm b)
  else if truthy (Rated.price a) && truthy (Rated.price b)
  then sub (Rated.price a) (Rated.price b)
  else Num 0.

Definition hasPrice (l : Listing.t) : bool :=
  truthy (Listing.price l) && gt (Listing.price l) (Num 0).

Definition hasPPS (l : Listing.t) : bool :=
  truthy (Listing.pricePerSqm l) && gt (Listing.pricePerSqm l) (Num 0).

(** Line 20. *)
Definition unrated (l : Listing.t) : Rated.t :=
  {| Rated.listing := l;
     Rated.rating := 5;
     Rated.label := EmptyString;
     Rated.ratingReason := "No price data available for comparison";
     Rated.ratingPros := None;
     Rated.ratingCons := None;
     Rated.medianPPS := Undefined |}.

(** Lines 35-41. *)
Definition collectPPS (withPPS : list Listing.t) : gmap string (list value) :=
  fold_left
    (fun (neighborhoodStats : gmap string (list value)) listing =>
       let key := Listing.neighborhood listing in
       let neighborhoodStats :=
         match neighborhoodStats !! key with
         | None => <[key := []]> neighborhoodStats
         | Some _ => neighborhoodStats
         end in
       alter (fun arr => arr ++ [Listing.pricePerSqm listing]) key neighborhoodStats)
    withPPS ∅.

Section WithRuntime.
Variable pctl : list value -> Q -> value.
(** [String(n)] and [n.toLocaleString('de-DE')]: the text they print is
    not modelled. *)
Variable numberToString : value -> string.
Variable toLocaleString : value -> string.

(** Lines 42-49. *)
Definition summarize (arr : list value) : NStats :=
  let sorted := sort sub arr in
  {| median := pctl sorted 50;
     p25 := pctl sorted 25;
     count := length sorted |}.

(** What the callback updates as it goes: [score], [mainReason], [pros]
    and [cons]. *)
Record acc : Type := mkAcc {
  score : Z;
  mainReason : string;
  pros : list string;
  cons : list string
}.

Definition setScore (n : Z) (a : acc) : acc :=
  mkAcc n (mainReason a) (pros a) (cons a).
Definition setReason (s : string) (a : acc) : acc :=
  mkAcc (score a) s (pros a) (cons a).
Definition pushPro (s : string) (a : acc) : acc :=
  mkAcc (score a) (mainReason a) (pros a ++ [s]) (cons a).
Definition pushCon (s : string) (a : acc) : acc :=
  mkAcc (score a) (mainReason a) (pros a) (cons a ++ [s]).

(** The callback of [listings.map], lines 52-172, block by block. *)

(** Lines 58-131: the price against the medians. *)
Definition ratePrice (medianPPS medianPrice : value)
    (neighborhoodStats : gmap string NStats) (listing : Listing.t) (a : acc) : acc :=
  if truthy (Listing.pricePerSqm listing)
     && gt (Listing.pricePerSqm listing) (Num 0) && truthy medianPPS
  then
    let ratio := div (Listing.pricePerSqm listing) medianPPS in
    let pctDiff := round (mul (abs (sub (Num 1) ratio)) (Num 100)) in
    let pps := numberToString (Listing.pricePerSqm listing) in
    let pct := numberToString pctDiff in
    let med := numberToString (round medianPPS) in
    let ispod :=
      (pps ++ " €/m² je " ++ pct ++ "% ispod medijane (" ++ med ++ " €/m²)")%string in
    let blizu := (pps ++ " €/m² je blizu medijane (" ++ med ++ " €/m²)")%string in
    let iznad :=
      (pps ++ " €/m² je " ++ pct ++ "% iznad medijane (" ++ med ++ " €/m²)")%string in
    let a :=
      if le ratio (Num 0.4) then
        pushPro "Cena po m² daleko ispod proseka"
          (setReason ("Izuzetna cena: " ++ ispod) (setScore 10 a))
      else if le ratio (Num 0.55) then
        pushPro "Cena po m² znatno ispod proseka"
          (setReason ("Odlicna cena: " ++ ispod) (setScore 9 a))
      else if le ratio (Num 0.7) then
        pushPro "Cena po m² znatno niza od proseka"
          (setReason ("Vrlo dobra cena: " ++ ispod) (setScore 8 a))
      else if le ratio (Num 0.85) then
        pushPro "Cena po m² ispod proseka"
          (setReason ("Dobra cena: " ++ ispod) (setScore 7 a))
      else if le ratio (Num 1.0) then
        pushPro "Cena blizu ili malo ispod proseka"
          (setReason ("Solidna cena: " ++ blizu) (setScore 6 a))
      else if le ratio (Num 1.15) then
        pushCon "Cena po m² na nivou proseka - nema ustede"
          (setReason ("Prosecna cena: " ++ blizu) (setScore 5 a))
      else if le ratio (Num 1.3) then
        pushCon ("Cena po m² iznad proseka za " ++ pct ++ "%")
          (setReason ("Iznadprosecna cena: " ++ iznad) (setScore 4 a))
      else if le ratio (Num 1.5) then
        pushCon "Cena po m² znatno iznad proseka"
          (setReason ("Skupa: " ++ iznad) (setScore 3 a))
      else if le ratio (Num 1.8) then
        pushCon "Cena po m² mnogo iznad proseka"
          (setReason ("Vrlo skupa: " ++ iznad) (setScore 2 a))
      else
        pushCon "Cena po m² daleko iznad proseka"
          (setReason ("Preskupa: " ++ iznad) (setScore 1 a)) in
    (* Bonus: compare to neighborhood median *)
    match neighborhoodStats !! Listing.neighborhood listing with
    | Some nStats =>
        if truthy (median nStats) then
          let nRatio := div (Listing.pricePerSqm listing) (median nStats) in
          let nmed := numberToString (round (median nStats)) in
          if le nRatio (Num 0.6) then
            pushPro ("Najbolja cena u " ++ Listing.neighborhood listing
                       ++ " (prosek: " ++ nmed ++ " €/m²)")
              (setScore (Z.min 10 (score a + 1)) a)
          else if le nRatio (Num 0.85) then
            pushPro ("Ispod proseka za " ++ Listing.neighborhood listing
                       ++ " (" ++ nmed ++ " €/m²)") a
          else if gt nRatio (Num 1.2) then
            pushCon ("Iznad proseka za " ++ Listing.neighborhood listing
                       ++ " (" ++ nmed ++ " €/m²)") a
          else a
        else a
    | None => a
    end
  else if truthy (Listing.price listing) && truthy medianPrice then
    (* Fallback: rate by total price only *)
    let ratio := div (Listing.price listing) medianPrice in
    let a :=
      if le ratio (Num 0.5) then setScore 8 a
      else if le ratio (Num 0.75) then setScore 7 a
      else if le ratio (Num 1.0) then setScore 6 a
      else if le ratio (Num 1.25) then setScore 5 a
      else if le ratio (Num 1.5) then setScore 4 a
      else setScore 3 a in
    pushCon "Nema podataka o ceni po m² za preciznije poredjenje"
      (setReason ("Ocenjeno po ukupnoj ceni ("
                    ++ toLocaleString (Listing.price listing)
                    ++ " €) - nema podataka o kvadraturi") a)
  else
    pushCon "Nema dovoljno podataka za poredjenje"
      (setReason "Nedovoljno podataka o ceni za ocenu" a).

(** Lines 133-144: bonus for having large land. *)
Definition rateLand (listing : Listing.t) (a : acc) : acc :=
  let plac :=
    ("Veliki plac od " ++ numberToString (Listing.landSqm listing) ++ " m²")%string in
  if truthy (Listing.landSqm listing)
     && gt (Listing.landSqm listing) (Num 500) && truthy (Listing.price listing)
  then
    let landPriceRatio := div (Listing.price listing) (Listing.landSqm listing) in
    if lt landPriceRatio (Num 100) then
      pushPro ("Veliki plac (" ++ numberToString (Listing.landSqm listing)
                 ++ " m²) po niskoj ceni ("
                 ++ numberToString (round landPriceRatio) ++ " €/m² zemljista)")
        (setScore (Z.min 10 (score a + 1)) a)
    else if gt (Listing.landSqm listing) (Num 800) then pushPro plac a
    else a
  else if truthy (Listing.landSqm listing) && gt (Listing.landSqm listing) (Num 800)
  then pushPro plac a
  else a.

(** Lines 146-157: additional context. *)
Definition addContext (listing : Listing.t) (a : acc) : acc :=
  let a :=
    if truthy (Listing.sqm listing) && gt (Listing.sqm listing) (Num 150) then
      pushPro ("Velika kuca (" ++ numberToString (Listing.sqm listing) ++ " m²)") a
    else if truthy (Listing.sqm listing) && lt (Listing.sqm listing) (Num 50) then
      pushCon ("Mala kuca (" ++ numberToString (Listing.sqm listing) ++ " m²)") a
    else a in
  if truthy (Listing.price listing) && lt (Listing.price listing) (Num 30000) then
    pushPro ("Niska ukupna cena (" ++ toLocaleString (Listing.price listing) ++ " €)") a
  else if truthy (Listing.price listing) && gt (Listing.price listing) (Num 200000) then
    pushCon ("Visoka ukupna cena (" ++ toLocaleString (Listing.price listing) ++ " €)") a
  else a.

Definition rate (medianPPS medianPrice : value)
    (neighborhoodStats : gmap string NStats) (listing : Listing.t) : Rated.t :=
  let a := mkAcc 5 EmptyString [] [] in
  let a := ratePrice medianPPS medianPrice neighborhoodStats listing a in
  let a := rateLand listing a in
  let a := addContext listing a in
  let a := setScore (Z.max 1 (Z.min 10 (score a))) a in
  let label := if (9 <=? score a)%Z then "MUST BUY"%string else EmptyString in
  {| Rated.listing := listing;
     Rated.rating := score a;
     Rated.label := label;
     Rated.ratingReason := mainReason a;
     Rated.ratingPros := Some (pros a);
     Rated.ratingCons := Some (cons a);
     Rated.medianPPS := round (or_else medianPPS (Num 0)) |}.

(** Lines 23-172: the array [rated] before it is sorted. *)
Definition ratedBeforeSort (listings : list Listing.t) : list Rated.t :=
  let withPrice := List.filter hasPrice listings in
  let withPPS := List.filter hasPPS listings in
  let allPPS := sort sub (map Listing.pricePerSqm withPPS) in
  let medianPPS := if Nat.eqb (length allPPS) 0 then Null else pctl allPPS 50 in
  let p25PPS := if Nat.eqb (length allPPS) 0 then Null else pctl allPPS 25 in
  let p10PPS := if Nat.eqb (length allPPS) 0 then Null else pctl allPPS 10 in
  let p75PPS := if Nat.eqb (length allPPS) 0 then Null else pctl allPPS 75 in
  let allPrices := sort sub (map Listing.price withPrice) in
  let medianPrice := pctl allPrices 50 in
  let neighborhoodStats := summarize <$> collectPPS withPPS in
  map (rate medianPPS medianPrice neighborhoodStats) listings.

(** [rateListings(listings)], lines 12-183. *)
Definition rateListingsWith (listings : list Listing.t) : list Rated.t :=
  if Nat.eqb (length listings) 0 then []
  else
    let withPrice := List.filter hasPrice listings in
    if Nat.eqb (length withPrice) 0 then map unrated listings
    else sort compareRated (ratedBeforeSort listings).
End WithRuntime.

Definition rateListings :
    (value -> string) -> (value -> string) -> list Listing.t -> list Rated.t :=
  rateListingsWith percentile.

(** The same on any engine, with the [sort] of lines 24, 31, 43 and 175
    left to [engine]. *)
Section WithEngine.
Variable engine : sortEngine.
Variable numberToString : value -> string.
Variable toLocaleString : value -> string.

Definition summarizeOn (arr : list value) : NStats :=
  let sorted := engine value sub arr in
  {| median := percentile sorted 50;
     p25 := percentile sorted 25;
     count := length sorted |}.

Definition ratedBeforeSortOn (listings : list Listing.t) : list Rated.t :=
  let withPrice := List.filter hasPrice listings in
  let withPPS := List.filter hasPPS listings in
  let allPPS := engine value sub (map Listing.pricePerSqm withPPS) in
  let medianPPS := if Nat.eqb (length allPPS) 0 then Null else percentile allPPS 50 in
  let p25PPS := if Nat.eqb (length allPPS) 0 then Null else percentile allPPS 25 in
  let p10PPS := if Nat.eqb (length allPPS) 0 then Null else percentile allPPS 10 in
  let p75PPS := if Nat.eqb (length allPPS) 0 then Null else percentile allPPS 75 in
  let allPrices := engine value sub (map Listing.price withPrice) in
  let medianPrice := percentile allPrices 50 in
  let neighborhoodStats := summarizeOn <$> collectPPS withPPS in
  map (rate numberToString toLocaleString medianPPS medianPrice neighborhoodStats)
    listings.

Definition rateListingsOn (listings : list Listing.t) : list Rated.t :=
  if Nat.eqb (length listings) 0 then []
  else
    let withPrice := List.filter hasPrice listings in
    if Nat.eqb (length withPrice) 0 then map unrated listings
    else engine Rated.t compareRated (ratedBeforeSortOn listings).
End WithEngine.

End RaterV2.

(** ** [src/scraper.js]: the pure helpers *)

Module Scraper.
Import JS.

(** [[\d.,]] *)
Definition isNumberChar (c : ascii) : bool :=
  isDigit c || Ascii.eqb c "." || Ascii.eqb c ",".

(** [parsePrice(raw)], lines 23-28.  [raw] is an attribute value:
    [undefined] ([None]) when the attribute is missing. *)
Definition parsePrice (raw : option string) : value :=
  match raw with
  | None => Null
  | Some raw =>
      if String.eqb raw EmptyString then Null
      else
        let cleaned := trim (replaceAll "," "." (removeAll (Ascii.eqb ".") raw)) in
        let num := parseFloat cleaned in
        match num with
        | NaN => Null
        | _ => num
        end
  end.

(** [parseSqm(text)], lines 30-35. *)
Definition parseSqm (text : string) : value :=
  if String.eqb text EmptyString then Null
  else
    match firstRun isNumberChar (removeAll isWhiteSpace text) with
    | None => Null
    | Some m => parseFloat (replaceFirst "," "." m)
    end.

(** [parsePricePerSqm(text)], lines 37-42. *)
Definition parsePricePerSqm (text : string) : value :=
  if String.eqb text EmptyString then Null
  else
    match firstRun isNumberChar (removeAll isWhiteSpace text) with
    | None => Null
    | Some m => parseFloat (replaceFirst "," "." (removeAll (Ascii.eqb ".") m))
    end.

Definition dquote : string := String "034" EmptyString.

(** What [/"TotalPages"\s*:\s*(\d+)/] captures when it matches at the head
    of [s]. *)
Definition totalPagesHere (s : string) : option string :=
  match stripPrefix (dquote ++ "TotalPages" ++ dquote) s with
  | Some r =>
      match dropWhile isWhiteSpace r with
      | String c r =>
          if Ascii.eqb c ":" then
            let ds := takeWhile isDigit (dropWhile isWhiteSpace r) in
            if String.eqb ds EmptyString then None else Some ds
          else None
      | EmptyString => None
      end
  | None => None
  end.

(** [html.match(/"TotalPages"\s*:\s*(\d+)/)]: the capture of the leftmost
    match. *)
Fixpoint matchTotalPages (html : string) : option string :=
  match totalPagesHere html with
  | Some ds => Some ds
  | None =>
      match html with
      | String _ r => matchTotalPages r
      | EmptyString => None
      end
  end.

Definition pageHere (s : string) : option string :=
  match stripPrefix "page=" s with
  | Some r =>
      let ds := takeWhile isDigit r in
      if String.eqb ds EmptyString then None else Some ds
  | None => None
  end.

(** [href.match(/page=(\d+)/)] *)
Fixpoint matchPage (href : string) : option string :=
  match pageHere href with
  | Some ds => Some ds
  | None =>
      match href with
      | String _ r => matchPage r
      | EmptyString => None
      end
  end.

Section WithDocument.
(** The two queries [getTotalPages] makes on the document cheerio loads:
    the [href] of every [a[href*="page="]] (the empty string when cheerio
    gives none) and the text of every
    [.page-number, .pagination a, .paging a], both in document order.  The
    HTML parser itself is outside the repository. *)
Variable pageLinkHrefs : string -> list string.
Variable pagerTexts : string -> list string.

(** The body of the first [each], lines 146-151. *)
Definition seeHref (maxPage : Z) (href : string) : Z :=
  match matchPage href with
  | Some ds =>
      match parseInt ds with
      | Some p => if (maxPage <? p)%Z then p else maxPage
      | None => maxPage
      end
  | None => maxPage
  end.

(** The body of the second [each], lines 156-158. *)
Definition seeText (maxPage : Z) (text : string) : Z :=
  match parseInt (trim text) with
  | Some num => if (maxPage <? num)%Z then num else maxPage
  | None => maxPage
  end.

(** [getTotalPages(html)], lines 135-162; [None] is [NaN]. *)
Definition getTotalPages (html : string) : option Z :=
  match matchTotalPages html with
  | Some ds => parseInt ds
  | None =>
      let maxPage := 1%Z in
      let maxPage := fold_left seeHref (pageLinkHrefs html) maxPage in
      let maxPage := fold_left seeText (pagerTexts html) maxPage in
      Some maxPage
  end.
End WithDocument.

(** The callback of [listings.filter] in [deduplicate] with the set [seen]
    it updates, lines 192-196: the listings kept from [listings] on. *)
Fixpoint keepUnseen (seen : gset string) (listings : list Listing.t) : list Listing.t :=
  match listings with
  | [] => []
  | l :: rest =>
      if String.eqb (Listing.id l) EmptyString || bool_decide (Listing.id l ∈ seen)
      then keepUnseen seen rest
      else l :: keepUnseen ({[Listing.id l]} ∪ seen) rest
  end.

(** [deduplicate(listings)], lines 190-197. *)
Definition deduplicate (listings : list Listing.t) : list Listing.t :=
  keepUnseen ∅ listings.

End Scraper.

(** ** [src/scraper.js]: the crawl *)

Module Crawl.
Import JS.

Definition BASE_URL : string := "https://www.halooglasi.com".

Record Neighborhood : Type := mkNeighborhood {
  name : string;
  slug : string
}.

Definition NEIGHBORHOODS : list Neighborhood :=
  [ mkNeighborhood "Leštane" "beograd-grocka-lestane";
    mkNeighborhood "Boleč" "beograd-grocka-bolec";
    mkNeighborhood "Vinča" "beograd-grocka-vinca";
    mkNeighborhood "Kaluđerica" "beograd-grocka-kaludjerica";
    mkNeighborhood "Grocka" "beograd-grocka";
    mkNeighborhood "Voždovac" "beograd-vozdovac";
    mkNeighborhood "Barajevo" "beograd-barajevo";
    mkNeighborhood "Zvezdara" "beograd-zvezdara" ].

(** A string is truthy when it is not empty. *)
Definition nonEmpty (s : string) : bool := negb (String.eqb s EmptyString).

(** The end of the callback of [parseListings], lines 107-129, from the
    fields the lines above it read off the element with cheerio: the price
    per m² when the page gives none, and the listing pushed, if any. *)
Definition emitListing (id title link : string) (price pricePerSqm sqm landSqm : value)
    (rooms : option string) (imgSrc : string) (imgCount : Z) (location : string)
    (neighborhood : Neighborhood) : option Listing.t :=
  let calculatedPPS := pricePerSqm in
  let calculatedPPS :=
    if negb (truthy calculatedPPS) && truthy price && truthy sqm && gt sqm (Num 0)
    then round (div price sqm)
    else calculatedPPS in
  if nonEmpty title || truthy price then
    Some {| Listing.id := id;
            Listing.title := title;
            Listing.link := link;
            Listing.price := price;
            Listing.pricePerSqm := calculatedPPS;
            Listing.sqm := sqm;
            Listing.landSqm := landSqm;
            Listing.rooms := rooms;
            Listing.image := imgSrc;
            Listing.imgCount := imgCount;
            Listing.location := location;
            Listing.neighborhood := name neighborhood;
            Listing.slug := slug neighborhood |}
  else None.

(** What [fetch] comes back with: an exception (network error, timeout), or
    a response with its [ok] flag and its text. *)
Inductive response : Type :=
| Failed
| Answered (ok : bool) (text : string).

(** What [onProgress] is called with. *)
Record Progress : Type := mkProgress {
  current : nat;
  total : nat;
  currentName : string;
  listings : list Listing.t
}.

Section WithNetwork.
(** The network during one run, as [fetch(url, { headers, timeout })] sees
    it; the pauses between requests and the log are not modelled. *)
Variable fetch : string -> response.
(** [parseListings] and the two document queries of [getTotalPages]: the
    HTML parser is outside the repository. *)
Variable parseListings : string -> Neighborhood -> list Listing.t.
Variable pageLinkHrefs : string -> list string.
Variable pagerTexts : string -> list string.

(** [fetchPage(url)], lines 44-53: [None] is [null]. *)
Definition fetchPage (url : string) : option string :=
  match fetch url with
  | Failed => None
  | Answered ok text => if ok then Some text else None
  end.

(** [`${page}`] for a page number. *)
Definition pageToString (page : Z) : string := NilZero.string_of_int (Z.to_int page).

(** The values [page] takes in [for (page = 2; page <= totalPages; page++)];
    none when [totalPages] is [NaN]. *)
Definition pagesAfterFirst (totalPages : option Z) : list Z :=
  match totalPages with
  | Some t => map (fun k => (2 + Z.of_nat k)%Z) (seq 0 (Z.to_nat (t - 1)))
  | None => []
  end.

(** The body of that loop, lines 175-181. *)
Definition addPage (url : string) (neighborhood : Neighborhood)
    (allListings : list Listing.t) (page : Z) : list Listing.t :=
  let pageUrl := (url ++ "?page=" ++ pageToString page)%string in
  match fetchPage pageUrl with
  | Some html =>
      if nonEmpty html then allListings ++ parseListings html neighborhood
      else allListings
  | None => allListings
  end.

(** [scrapeNeighborhood(neighborhood)], lines 164-188. *)
Definition scrapeNeighborhood (neighborhood : Neighborhood) : list Listing.t :=
  let url := (BASE_URL ++ "/nekretnine/prodaja-kuca/" ++ slug neighborhood)%string in
  match fetchPage url with
  | None => []
  | Some firstPageHtml =>
      if negb (nonEmpty firstPageHtml) then []
      else
        let allListings := parseListings firstPageHtml neighborhood in
        let totalPages := Scraper.getTotalPages pageLinkHrefs pagerTexts firstPageHtml in
        fold_left (addPage url neighborhood) (pagesAfterFirst totalPages) allListings
  end.

(** The loop of [scrapeAll], lines 202-220, from index [i] on: the calls of
    [onProgress] in order, and [allListings] at the end. *)
Fixpoint scrapeFrom (i : nat) (rest : list Neighborhood) (allListings : list Listing.t) :
    list Progress * list Listing.t :=
  match rest with
  | [] => ([], allListings)
  | neighborhood :: rest =>
      let listings := scrapeNeighborhood neighborhood in
      let allListings := allListings ++ listings in
      let unique := Scraper.deduplicate allListings in
      let progress :=
        {| current := i + 1;
           total := length NEIGHBORHOODS;
           currentName := name neighborhood;
           listings := unique |} in
      let '(calls, allListings) := scrapeFrom (S i) rest allListings in
      (progress :: calls, allListings)
  end.

(** [scrapeAll(onProgress)], lines 199-225: what [onProgress] is called
    with, call after call, and the listings returned. *)
Definition scrapeAll : list Progress * list Listing.t :=
  let '(calls, allListings) := scrapeFrom 0 NEIGHBORHOODS [] in
  (calls, Scraper.deduplicate allListings).
End WithNetwork.

End Crawl.

(** ** [src/server.js]: the state and the statistics *)

Module Server.
Import JS.

(** [scrapeProgress] *)
Record ScrapeProgress : Type := mkScrapeProgress {
  current : nat;
  total : nat;
  currentName : string
}.

(** The variables of lines 10-16.  [newIds] is a set that is listed in
    insertion order; [knownIds] is only ever asked for membership. *)
Record State : Type := mkState {
  listings : list Rated.t;
  lastScrapeTime : option string;
  scraping : bool;
  knownIds : gset string;
  newIds : list string;
  scrapeCount : nat;
  scrapeProgress : ScrapeProgress
}.

Definition initial : State :=
  {| listings := [];
     lastScrapeTime := None;
     scraping := false;
     knownIds := ∅;
     newIds := [];
     scrapeCount := 0;
     scrapeProgress := mkScrapeProgress 0 (length Crawl.NEIGHBORHOODS) EmptyString |}.

(** [set.add(x)] on a set kept in insertion order. *)
Definition setAdd (x : string) (set : list string) : list string :=
  if bool_decide (x ∈ set) then set else set ++ [x].

(** The body of the loop that detects new listings, lines 100-105, on the
    pair of [newIds] and [knownIds]. *)
Definition noteListing (sets : list string * gset string) (l : Rated.t) :
    list string * gset string :=
  let '(newIds, knownIds) := sets in
  let id := Listing.id (Rated.listing l) in
  if Crawl.nonEmpty id && negb (bool_decide (id ∈ knownIds))
  then (setAdd id newIds, {[id]} ∪ knownIds)
  else (newIds, knownIds).

Section WithRuntime.
(** [rateListings] is the one of [rater.js]; it prints numbers with
    [numberToString]. *)
Variable numberToString : value -> string.

(** [runScrape], lines 76-121, piece by piece.  Between two pieces the
    function waits for the crawl; whoever calls [runScrape] in between finds
    [scraping] set and returns at once. *)

(** Lines 78-79. *)
Definition start (st : State) : State :=
  {| listings := listings st;
     lastScrapeTime := lastScrapeTime st;
     scraping := true;
     knownIds := knownIds st;
     newIds := newIds st;
     scrapeCount := scrapeCount st;
     scrapeProgress :=
       mkScrapeProgress 0 (length Crawl.NEIGHBORHOODS)
         (default EmptyString (Crawl.name <$> head Crawl.NEIGHBORHOODS)) |}.

(** The callback given to [scrapeAll], lines 83-94. *)
Definition onProgress (st : State) (progress : Crawl.Progress) : State :=
  {| listings := Rater.rateListings numberToString (Crawl.listings progress);
     lastScrapeTime := lastScrapeTime st;
     scraping := scraping st;
     knownIds := knownIds st;
     newIds := newIds st;
     scrapeCount := scrapeCount st;
     scrapeProgress :=
       mkScrapeProgress (Crawl.current progress) (Crawl.total progress)
         (Crawl.currentName progress) |}.

(** Lines 96-109, once [scrapeAll] has returned [raw]; [now] is
    [new Date().toISOString()]. *)
Definition complete (st : State) (raw : list Listing.t) (now : string) : State :=
  let rated := Rater.rateListings numberToString raw in
  let '(newIds, knownIds) := fold_left noteListing rated ([], knownIds st) in
  {| listings := rated;
     lastScrapeTime := Some now;
     scraping := scraping st;
     knownIds := knownIds;
     newIds := newIds;
     scrapeCount := scrapeCount st + 1;
     scrapeProgress := scrapeProgress st |}.

(** The [finally] block, lines 117-120. *)
Definition finish (st : State) : State :=
  {| listings := listings st;
     lastScrapeTime := lastScrapeTime st;
     scraping := false;
     knownIds := knownIds st;
     newIds := newIds st;
     scrapeCount := scrapeCount st;
     scrapeProgress := mkScrapeProgress 0 (length Crawl.NEIGHBORHOODS) EmptyString |}.

(** [runScrape()] from its call to its end: [calls] is what [scrapeAll]
    gave to the callback, and [raw] what it returned, [None] when it threw
    after those calls. *)
Definition runScrape (st : State) (calls : list Crawl.Progress)
    (raw : option (list Listing.t)) (now : string) : State :=
  if scraping st then st
  else
    let st := start st in
    let st := fold_left onProgress calls st in
    let st :=
      match raw with
      | Some raw => complete st raw now
      | None => st
      end in
    finish st.
End WithRuntime.

(** One entry of [byNeighborhood] while it is built, and once [prices] is
    deleted. *)
Record AreaCount : Type := mkAreaCount {
  count : nat;
  avgPPS : value
}.

Module Stats.
Record t : Type := mk {
  total : nat;
  withPrice : nat;
  withPPS : nat;
  mustBuy : nat;
  byNeighborhood : gmap string AreaCount;
  medianPPS : value
}.
End Stats.

(** The first loop of [getStats], lines 48-56: the count and the prices per
    m² of every neighbourhood.  As in the rater, the object is keyed by the
    display names of the areas; the names [Object.prototype] defines are
    not modelled. *)
Definition countAreas (listings : list Rated.t) : gmap string (nat * list value) :=
  fold_left
    (fun (byNeighborhood : gmap string (nat * list value)) l =>
       let key := Listing.neighborhood (Rated.listing l) in
       let byNeighborhood :=
         match byNeighborhood !! key with
         | None => <[key := (0%nat, [])]> byNeighborhood
         | Some _ => byNeighborhood
         end in
       let byNeighborhood :=
         alter (fun entry => (S (fst entry), snd entry)) key byNeighborhood in
       if truthy (Rated.pricePerSqm l)
       then alter (fun entry => (fst entry, snd entry ++ [Rated.pricePerSqm l]))
              key byNeighborhood
       else byNeighborhood)
    listings ∅.

(** The second loop, lines 58-64. *)
Definition average (entry : nat * list value) : AreaCount :=
  let prices := snd entry in
  {| count := fst entry;
     avgPPS :=
       if negb (Nat.eqb (length prices) 0)
       then round (div (fold_left add prices (Num 0))
                     (Num (inject_Z (Z.of_nat (length prices)))))
       else Num 0 |}.

(** [getStats()], lines 43-74, on the current [listings]. *)
Definition getStats (listings : list Rated.t) : Stats.t :=
  let withPrice := List.filter (fun l => gt (Rated.price l) (Num 0)) listings in
  let withPPS := List.filter (fun l => gt (Rated.pricePerSqm l) (Num 0)) listings in
  let byNeighborhood := average <$> countAreas listings in
  {| Stats.total := length listings;
     Stats.withPrice := length withPrice;
     Stats.withPPS := length withPPS;
     Stats.mustBuy :=
       length (List.filter (fun l => String.eqb (Rated.label l) "MUST BUY") listings);
     Stats.byNeighborhood := byNeighborhood;
     Stats.medianPPS :=
       match listings with
       | l :: _ => Rated.medianPPS l
       | [] => Num 0
       end |}.

End Server.

(** * The vocabulary of the properties *)

(** ** Scores *)

(** What the two versions are compared on: everything but the justification. *)
Definition core (r : Rated.t) : Listing.t * Z * string * JS.value :=
  (Rated.listing r, Rated.rating r, Rated.label r, Rated.medianPPS r).

(** The score the blocks of the callback compute, without the texts: the
    ladder of the price per m², the coarser ladder of the price, the two
    bonuses and the final clamp. *)
Definition ladder (ratio : JS.value) : Z :=
  if JS.le ratio (JS.Num 0.4) then 10
  else if JS.le ratio (JS.Num 0.55) then 9
  else if JS.le ratio (JS.Num 0.7) then 8
  else if JS.le ratio (JS.Num 0.85) then 7
  else if JS.le ratio (JS.Num 1.0) then 6
  else if JS.le ratio (JS.Num 1.15) then 5
  else if JS.le ratio (JS.Num 1.3) then 4
  else if JS.le ratio (JS.Num 1.5) then 3
  else if JS.le ratio (JS.Num 1.8) then 2
  else 1.

Definition coarseLadder (ratio : JS.value) : Z :=
  if JS.le ratio (JS.Num 0.5) then 8
  else if JS.le ratio (JS.Num 0.75) then 7
  else if JS.le ratio (JS.Num 1.0) then 6
  else if JS.le ratio (JS.Num 1.25) then 5
  else if JS.le ratio (JS.Num 1.5) then 4
  else 3.

(** The listing is at most 0.6 times the median of its neighbourhood. *)
Definition areaBonus (stats : gmap string NStats) (l : Listing.t) : bool :=
  match stats !! Listing.neighborhood l with
  | Some nStats =>
      JS.truthy (median nStats)
      && JS.le (JS.div (Listing.pricePerSqm l) (median nStats)) (JS.Num 0.6)
  | None => false
  end.

(** More than 500 m² of land at less than 100 per m². *)
Definition landBonus (l : Listing.t) : bool :=
  JS.truthy (Listing.landSqm l) && JS.gt (Listing.landSqm l) (JS.Num 500)
  && JS.truthy (Listing.price l)
  && JS.lt (JS.div (Listing.price l) (Listing.landSqm l)) (JS.Num 100).

Definition priceScore (medianPPS medianPrice : JS.value)
    (stats : gmap string NStats) (l : Listing.t) (score : Z) : Z :=
  if JS.truthy (Listing.pricePerSqm l)
     && JS.gt (Listing.pricePerSqm l) (JS.Num 0) && JS.truthy medianPPS
  then
    let base := ladder (JS.div (Listing.pricePerSqm l) medianPPS) in
    if areaBonus stats l then Z.min 10 (base + 1) else base
  else if JS.truthy (Listing.price l) && JS.truthy medianPrice
  then coarseLadder (JS.div (Listing.price l) medianPrice)
  else score.

Definition landScore (l : Listing.t) (score : Z) : Z :=
  if landBonus l then Z.min 10 (score + 1) else score.

Definition finalScore (medianPPS medianPrice : JS.value)
    (stats : gmap string NStats) (l : Listing.t) : Z :=
  Z.max 1 (Z.min 10 (landScore l (priceScore medianPPS medianPrice stats l 5))).

Definition labelOf (score : Z) : string :=
  if (9 <=? score)%Z then "MUST BUY" else EmptyString.

(** A rating within 1..10 whose label is [MUST BUY] exactly from 9 up, and
    empty below. *)
Definition wellRated (r : Rated.t) : Prop :=
  (1 <= Rated.rating r <= 10)%Z
  /\ (Rated.label r = "MUST BUY"%string <-> (9 <= Rated.rating r)%Z)
  /\ ((Rated.rating r < 9)%Z -> Rated.label r = EmptyString).

(** A price the statistics can use: a number above zero. *)
Definition usablePrice (l : Listing.t) : Prop :=
  exists q, Listing.price l = JS.Num q /\ 0 < q.

(** The record returned for a listing when nothing is priced: rating 5, no
    label, the "no data" reason and nothing else. *)
Definition neutral (l : Listing.t) : Rated.t :=
  Rated.mk l 5 EmptyString "No price data available for comparison" None None
    JS.Undefined.

(** ** Order *)

Definition bothPPS (a b : Rated.t) : bool :=
  JS.truthy (Rated.pricePerSqm a) && JS.truthy (Rated.pricePerSqm b).

Definition bothPrice (a b : Rated.t) : bool :=
  JS.truthy (Rated.price a) && JS.truthy (Rated.price b).

(** [a] may stand before [b]: its rating is not lower and, at equal ratings,
    its price per m² is not higher when both have one, else its price is not
    higher when both have one. *)
Definition inOrder (a b : Rated.t) : Prop :=
  (Rated.rating b <= Rated.rating a)%Z
  /\ (Rated.rating a = Rated.rating b ->
      (bothPPS a b = true ->
       JS.le (Rated.pricePerSqm a) (Rated.pricePerSqm b) = true)
      /\ (bothPPS a b = false -> bothPrice a b = true ->
          JS.le (Rated.price a) (Rated.price b) = true)).

#[local] Instance inOrder_dec : RelDecision inOrder.
Proof. intros a b. unfold inOrder. apply _. Defined.




(** [comparefn] is a consistent comparator for the elements of [l], as the
    language defines it: it answers with a number that is not [NaN]; being
    level is reflexive, symmetric and transitive; being before is
    transitive, and so is being after. *)
Definition consistent {A : Type} (comparefn : A -> A -> JS.value) (l : list A) : Prop :=
  (forall a b, In a l -> In b l -> exists q, comparefn a b = JS.Num q)
  /\ (forall a, In a l -> JS.level comparefn a a = true)
  /\ (forall a b, In a l -> In b l ->
      JS.level comparefn a b = true -> JS.level comparefn b a = true)
  /\ (forall a b c, In a l -> In b l -> In c l ->
      JS.level comparefn a b = true -> JS.level comparefn b c = true ->
      JS.level comparefn a c = true)
  /\ (forall a b c, In a l -> In b l -> In c l ->
      JS.before comparefn a b = true -> JS.before comparefn b c = true ->
      JS.before comparefn a c = true)
  /\ (forall a b c, In a l -> In b l -> In c l ->
      JS.after comparefn a b = true -> JS.after comparefn b c = true ->
      JS.after comparefn a c = true).



(** ** Numbers *)

(** A number a binary64 value holds exactly: [k * 2^e] with [|k| < 2^53]
    and [e] from -1074 to 971. *)
Definition binary64 (q : Q) : Prop :=
  exists k e : Z,
    (Z.abs k < 2 ^ 53)%Z /\ (-1074 <= e <= 971)%Z /\ q == inject_Z k * 2 ^ e.





(** An integer below 2^53 in absolute value: a binary64 number holds it
    exactly, and [parseInt] and [parseFloat] return it without rounding. *)
Definition safeInteger (z : Z) : Prop := (Z.abs z < 2 ^ 53)%Z.

(** The rank [idx = (p / 100) * (n - 1)] of the percentile [p] in an array
    of [n] elements. *)
Definition rank (p : Q) (n : nat) : Q := (p / 100) * (inject_Z (Z.of_nat n) - 1).

(** [a + (b - a) * w] with the sum, the difference and the product of the
    program: the value at the fraction [w] of the way from [a] to [b]. *)
Definition interpolate (a b : JS.value) (w : Q) : JS.value :=
  JS.add a (JS.mul (JS.sub b a) (JS.Num w)).

(** ** Statistics and scenarios *)

(** A listing with the given id, price, price per m² and neighbourhood. *)
Definition house (id : string) (price pricePerSqm : JS.value) (neighborhood : string) :
    Listing.t :=
  Listing.mk id "Kuca" EmptyString price pricePerSqm JS.Null JS.Null None
    EmptyString 0 EmptyString neighborhood EmptyString.

(** A rendering of numbers that prints nothing. *)
Definition blank (v : JS.value) : string := EmptyString.

(** Two listings without a price: the result keeps the input order. *)
Definition unpricedPair : list Listing.t :=
  [house "1" JS.Null (JS.Num 200) "Grocka"; house "2" JS.Null (JS.Num 100) "Grocka"].

(** One listing without a price per m² between two that have one, all three
    rated 6. *)
Definition mixedFour : list Listing.t :=
  [house "1" JS.Null (JS.Num 100) "Grocka";
   house "2" (JS.Num 100) JS.Null "Grocka";
   house "3" JS.Null (JS.Num 90) "Grocka";
   house "4" JS.Null (JS.Num 120) "Grocka"].

(** Four priced listings of which three are rated 6: the first is before
    the second by its price per m², the second before the third by its
    price, and the third, which has no price per m², before the first by
    its price. *)
Definition cyclicFour : list Listing.t :=
  [house "1" (JS.Num 300) (JS.Num 100) "Grocka";
   house "2" (JS.Num 100) (JS.Num 101) "Grocka";
   house "3" (JS.Num 200) JS.Null "Grocka";
   house "4" (JS.Num 250) (JS.Num 200) "Grocka"].

(** The statistics as [rateListings] computes them, lines 23-49. *)
Definition globalMedianPPS (listings : list Listing.t) : JS.value :=
  let allPPS :=
    JS.sort JS.sub (map Listing.pricePerSqm (List.filter Rater.hasPPS listings)) in
  if (length allPPS =? 0)%nat then JS.Null else Rater.percentile allPPS 50.

Definition globalMedianPrice (listings : list Listing.t) : JS.value :=
  Rater.percentile
    (JS.sort JS.sub (map Listing.price (List.filter Rater.hasPrice listings))) 50.

Definition areaStats (listings : list Listing.t) : gmap string NStats :=
  Rater.summarize Rater.percentile <$> Rater.collectPPS (List.filter Rater.hasPPS listings).

(** Five priced listings; the first is at 0.4 times the median of 1000. *)
Definition fivePriced : list Listing.t :=
  [house "1" (JS.Num 40000) (JS.Num 400) "Grocka";
   house "2" (JS.Num 90000) (JS.Num 1000) "Grocka";
   house "3" (JS.Num 95000) (JS.Num 1000) "Vinca";
   house "4" (JS.Num 120000) (JS.Num 1200) "Vinca";
   house "5" (JS.Num 150000) (JS.Num 1500) "Vinca"].




(** ** Pages *)

(** A non-empty run of decimal digits. *)
Definition digits (s : string) : Prop :=
  s <> EmptyString /\ JS.takeWhile JS.isDigit s = s.

(** The page numbers the pagination controls of a page refer to: the
    [page=N] of the links and the numbers the pager elements show. *)
Definition referencedPages (pageLinkHrefs pagerTexts : string -> list string)
    (html : string) : list Z :=
  omap (fun href => Scraper.matchPage href ≫= JS.parseInt) (pageLinkHrefs html)
  ++ omap (fun text => JS.parseInt (JS.trim text)) (pagerTexts html).

(** The largest of them, 1 when there is none (or none above 1). *)
Definition largestPage (pages : list Z) : Z := foldr Z.max 1%Z pages.

(** A page with the links of a pager and no embedded count. *)
Definition pagerOnly : string := "<a href=/kuce?page=2>2</a><a href=/kuce?page=3>3</a>".

(** The answers of the two queries on it, and on a page with no pager. *)
Definition noLinks (html : string) : list string := [].

Definition pagerLinks (html : string) : list string :=
  ["/kuce?page=2"; "/kuce?page=3"]%string.

(** A page whose embedded data declares no page at all. *)
Definition zeroPages : string :=
  "{" ++ Scraper.dquote ++ "TotalPages" ++ Scraper.dquote ++ ":0,"
      ++ Scraper.dquote ++ "Ads" ++ Scraper.dquote ++ ":[]}".

(** A page that embeds a count of 12 pages while its pager stops at 3. *)
Definition twelvePages : string :=
  "{" ++ Scraper.dquote ++ "TotalPages" ++ Scraper.dquote ++ ": 12}"
      ++ "<a href=/kuce?page=2>2</a><a href=/kuce?page=3>3</a>".

(** ** Further vocabulary *)

(** A positive number. *)
Definition positiveNumber (v : JS.value) : Prop := exists q, v = JS.Num q /\ 0 < q.

(** The listings page [page] of a neighbourhood gives: those [parseListings]
    reads in its text, none when the page cannot be fetched or is empty. *)
Definition pageListings (fetch : string -> Crawl.response)
    (parseListings : string -> Crawl.Neighborhood -> list Listing.t)
    (url : string) (neighborhood : Crawl.Neighborhood) (page : Z) : list Listing.t :=
  match Crawl.fetchPage fetch (url ++ "?page=" ++ Crawl.pageToString page) with
  | Some html => if Crawl.nonEmpty html then parseListings html neighborhood else []
  | None => []
  end.

(** The address of the first page of a neighbourhood. *)
Definition areaUrl (neighborhood : Crawl.Neighborhood) : string :=
  Crawl.BASE_URL ++ "/nekretnine/prodaja-kuca/" ++ Crawl.slug neighborhood.

(** The ids a list of rated listings brings: those of its listings that
    are not empty. *)
Definition brings (rated : list Rated.t) (id : string) : Prop :=
  id <> EmptyString /\ exists r, In r rated /\ Listing.id (Rated.listing r) = id.




(** Every character of [s] satisfies [p]. *)
Fixpoint allOf (p : ascii -> bool) (s : string) : bool :=
  match s with
  | String c r => p c && allOf p r
  | EmptyString => true
  end.

(** [null], [NaN], or a number that is not negative. *)
Definition notNegative (v : JS.value) : Prop :=
  v = JS.Null \/ v = JS.NaN \/ exists q, v = JS.Num q /\ 0 <= q.

(** Digits and grouping points only. *)
Definition groupedDigits (s : string) : bool :=
  allOf (fun c => JS.isDigit c || Ascii.eqb "." c) s.

(** A site that serves one page for Grocka and fails everywhere else, and
    a reading of pages that finds one listing on each. *)
Definition grocka : Crawl.Neighborhood := Crawl.mkNeighborhood "Grocka" "beograd-grocka".

Definition oneAreaSite (url : string) : Crawl.response :=
  if String.eqb url (areaUrl grocka) then Crawl.Answered true "<html>" else Crawl.Failed.

Definition oneListingPage (html : string) (neighborhood : Crawl.Neighborhood) :
    list Listing.t :=
  [house "1" (JS.Num 90000) (JS.Num 900) (Crawl.name neighborhood)].

(** A site with three pages for Grocka, of which the second cannot be
    fetched, and a reading of pages that finds on each page one listing
    that has the text of the page for id. *)
Definition threePageSite (url : string) : Crawl.response :=
  if String.eqb url (areaUrl grocka) then Crawl.Answered true pagerOnly
  else if String.eqb url (areaUrl grocka ++ "?page=3") then Crawl.Answered true "<p>3</p>"
  else Crawl.Failed.

Definition listingOfPage (html : string) (neighborhood : Crawl.Neighborhood) :
    list Listing.t :=
  [house html JS.Null JS.Null (Crawl.name neighborhood)].

(** * Properties *)

(** ** Numbers the program holds *)

Lemma binary64_integer (k : Z) : (Z.abs k < 2 ^ 53)%Z -> binary64 (inject_Z k).
Proof.
  intros Hk. exists k, 0%Z. split; [assumption|]. split; [lia|].
  change (2 ^ 0) with 1. ring.
Qed.




(** ** The sort *)

Section SortFacts.
Context {A : Type} (comparefn : A -> A -> JS.value).

Local Abbreviation after := (JS.after comparefn).
Local Abbreviation insert := (JS.insert comparefn).
Local Abbreviation sort := (JS.sort comparefn).

Lemma insert_perm (x : A) (l : list A) : Permutation (insert x l) (x :: l).
Proof.
  induction l as [|h t IH]; simpl; [reflexivity|].
  destruct (after x h); [|reflexivity].
  rewrite IH. apply perm_swap.
Qed.

Lemma sort_perm (l : list A) : Permutation (sort l) l.
Proof.
  induction l as [|x t IH]; simpl; [reflexivity|].
  rewrite insert_perm. now constructor.
Qed.

Lemma sort_In (l : list A) (x : A) : In x (sort l) <-> In x l.
Proof.
  split; apply Permutation_in; [|symmetry]; apply sort_perm.
Qed.

Lemma sort_length (l : list A) : length (sort l) = length l.
Proof. apply Permutation_length, sort_perm. Qed.





End SortFacts.

(** ** What the language requires of a sort *)

Section EngineFacts.
Context {A : Type} (comparefn : A -> A -> JS.value).

Local Abbreviation after := (JS.after comparefn).
Local Abbreviation before := (JS.before comparefn).
Local Abbreviation level := (JS.level comparefn).







Lemma consistent_perm (l l' : list A) :
  Permutation l l' -> consistent comparefn l -> consistent comparefn l'.
Proof.
  intros Hp (H0 & H1 & H2 & H3 & H4 & H5).
  assert (Hin : forall a, In a l' -> In a l)
    by (intros a; apply Permutation_in; now symmetry).
  repeat split; intros; eauto 10.
Qed.


End EngineFacts.


(** ** [percentile] *)

Lemma index_nth (x : list JS.value) (k : nat) (d : JS.value) :
  (k < length x)%nat -> JS.index x (Z.of_nat k) = nth k x d.
Proof.
  intros Hk. unfold JS.index.
  destruct (Z.ltb_spec (Z.of_nat k) 0) as [Hneg|_]; [lia|].
  rewrite Nat2Z.id.
  destruct (nth_error x k) as [v|] eqn:Hv.
  - symmetry. now apply nth_error_nth.
  - apply nth_error_None in Hv. lia.
Qed.

(** When the rank [p/100 * (n-1)] is the integer [k], the result is [x[k]]:
    nothing is interpolated. *)
Lemma percentile_integer_rank (x : list JS.value) (p : Q) (k : nat) (d : JS.value) :
  (k < length x)%nat ->
  (p / 100) * (inject_Z (Z.of_nat (length x)) - 1) == inject_Z (Z.of_nat k) ->
  Rater.percentile x p = nth k x d.
Proof.
  intros Hk Hidx. unfold Rater.percentile.
  destruct (Nat.eqb_spec (length x) 0) as [H0|_]; [lia|].
  cbv zeta.
  rewrite (Qfloor_comp _ _ Hidx), (Qceiling_comp _ _ Hidx), Qfloor_Z, Qceiling_Z.
  rewrite Z.eqb_refl. now apply index_nth.
Qed.

Lemma percentile_versions_agree : RaterV2.percentile = Rater.percentile.
Proof. reflexivity. Qed.

Lemma last_as_nth {A : Type} (x : list A) (d : A) :
  List.last x d = nth (length x - 1) x d.
Proof.
  induction x as [|a [|b t] IH]; try reflexivity.
  change (List.last (a :: b :: t) d) with (List.last (b :: t) d). rewrite IH.
  simpl. now rewrite Nat.sub_0_r.
Qed.

Lemma percentile_ends_middle (x : list JS.value) (d : JS.value) :
  x <> [] ->
  Rater.percentile x 0 = nth 0 x d
  /\ Rater.percentile x 100 = List.last x d
  /\ (Nat.Odd (length x) -> Rater.percentile x 50 = nth (length x / 2) x d).
Proof.
  intros Hne.
  assert (Hlen : (0 < length x)%nat) by (destruct x; [congruence|simpl; lia]).
  repeat split.
  - apply percentile_integer_rank; [assumption|].
    unfold Qdiv. ring.
  - rewrite last_as_nth.
    apply percentile_integer_rank; [lia|].
    rewrite Nat2Z.inj_sub by lia. change (Z.of_nat 1) with 1%Z.
    unfold Z.sub. rewrite inject_Z_plus, inject_Z_opp. field.
  - intros [k Hk].
    replace (length x / 2)%nat with k
      by (rewrite Hk; apply Nat.div_unique with 1%nat; lia).
    apply percentile_integer_rank; [lia|].
    rewrite Hk. replace (Z.of_nat (2 * k + 1)) with (2 * Z.of_nat k + 1)%Z by lia.
    rewrite inject_Z_plus, inject_Z_mult. field.
Qed.

Lemma index_in_range (x : list JS.value) (k : Z) :
  (0 <= k < Z.of_nat (length x))%Z -> In (JS.index x k) x.
Proof.
  intros Hk. unfold JS.index.
  destruct (Z.ltb_spec k 0) as [|_]; [lia|].
  destruct (nth_error x (Z.to_nat k)) as [v|] eqn:E.
  - now apply nth_error_In in E.
  - apply nth_error_None in E. lia.
Qed.

Lemma scale_within (s m : Q) : 0 <= s -> s <= 1 -> 0 <= m -> 0 <= s * m /\ s * m <= m.
Proof. intros. split; nra. Qed.

Lemma rank_in_range (n : nat) (p : Q) :
  (0 < n)%nat -> 0 <= p -> p <= 100 ->
  let idx := (p / 100) * (inject_Z (Z.of_nat n) - 1) in
  (0 <= Qfloor idx < Z.of_nat n)%Z /\ (0 <= Qceiling idx < Z.of_nat n)%Z
  /\ 0 <= idx - inject_Z (Qfloor idx) /\ idx - inject_Z (Qfloor idx) <= 1.
Proof.
  intros Hn Hp0 Hp100 idx.
  assert (Hm : inject_Z (Z.of_nat n) - 1 == inject_Z (Z.of_nat n - 1)).
  { unfold Z.sub. rewrite inject_Z_plus, inject_Z_opp. reflexivity. }
  assert (Hn1 : 0 <= inject_Z (Z.of_nat n) - 1).
  { rewrite Hm. change 0 with (inject_Z 0). rewrite <- Zle_Qle. lia. }
  assert (Hs : 0 <= p / 100 /\ p / 100 <= 1).
  { unfold Qdiv. change (/ 100) with (1 # 100). lra. }
  destruct Hs as [Hs0 Hs1].
  destruct (scale_within _ _ Hs0 Hs1 Hn1) as [Hlo Hhi]. fold idx in Hlo, Hhi.
  rewrite Hm in Hhi.
  pose proof (Qfloor_resp_le _ _ Hlo) as F0. change (Qfloor 0) with 0%Z in F0.
  pose proof (Qfloor_resp_le _ _ Hhi) as F1. rewrite Qfloor_Z in F1.
  pose proof (Qceiling_resp_le _ _ Hlo) as C0. change (Qceiling 0) with 0%Z in C0.
  pose proof (Qceiling_resp_le _ _ Hhi) as C1. rewrite Qceiling_Z in C1.
  pose proof (Qfloor_le idx) as Fl. pose proof (Qlt_floor idx) as Fu.
  rewrite inject_Z_plus in Fu. change (inject_Z 1) with 1 in Fu.
  repeat split; try lia; lra.
Qed.

Lemma floor_ceiling_step (q : Q) : (Qfloor q <= Qceiling q <= Qfloor q + 1)%Z.
Proof.
  split; [rewrite Zle_Qle; apply Qle_floor_ceiling|].
  pose proof (Qlt_floor q) as H. apply Qlt_le_weak in H.
  apply Qceiling_resp_le in H. now rewrite Qceiling_Z in H.
Qed.

(** C4.  For every non-empty sequence [x] (sorted or not) [percentile(x, 0)]
    is the first element and [percentile(x, 100)] the last; when the length
    is odd [percentile(x, 50)] is the middle element.  For every [p] from 0
    to 100 at which [idx = (p / 100) * (n - 1)] is computed without
    rounding (25, 50 and 75 among them), the floor and the ceiling of [idx]
    are indices of the array, the same or one apart, and [percentile(x, p)]
    is the element at that index when they are the same and otherwise
    [x[floor] + (x[ceiling] - x[floor]) * (idx - floor)]: the linear
    interpolation between the two ranks.  Both versions of the rater. *)
Theorem percentile_interpolates (x : list JS.value) (d : JS.value) :
  x <> [] ->
  (Rater.percentile x 0 = nth 0 x d
   /\ Rater.percentile x 100 = List.last x d
   /\ (Nat.Odd (length x) -> Rater.percentile x 50 = nth (length x / 2) x d))
  /\ (RaterV2.percentile x 0 = nth 0 x d
      /\ RaterV2.percentile x 100 = List.last x d
      /\ (Nat.Odd (length x) -> RaterV2.percentile x 50 = nth (length x / 2) x d))
  /\ (forall p, 0 <= p -> p <= 100 ->
      binary64 p -> binary64 (p / 100) -> binary64 (rank p (length x)) ->
      let idx := rank p (length x) in
      let lower := Qfloor idx in
      let upper := Qceiling idx in
      (0 <= lower <= upper)%Z /\ (upper < Z.of_nat (length x))%Z /\ (upper <= lower + 1)%Z
      /\ Rater.percentile x p
         = (if (lower =? upper)%Z then nth (Z.to_nat lower) x d
            else interpolate (nth (Z.to_nat lower) x d) (nth (Z.to_nat upper) x d)
                   (idx - inject_Z lower))
      /\ RaterV2.percentile x p = Rater.percentile x p).
Proof.
  intros Hne. rewrite percentile_versions_agree.
  split; [now apply percentile_ends_middle|]. split; [now apply percentile_ends_middle|].
  intros p Hp0 Hp100 _ _ _ idx lower upper.
  assert (Hn : (0 < length x)%nat) by (destruct x; [congruence|simpl; lia]).
  destruct (rank_in_range (length x) p Hn Hp0 Hp100) as (Hf & Hc & _).
  fold (rank p (length x)) in Hf, Hc. fold idx in Hf, Hc. fold lower in Hf. fold upper in Hc.
  pose proof (floor_ceiling_step idx) as Hstep. fold lower upper in Hstep.
  repeat split; try lia.
  unfold Rater.percentile.
  destruct (Nat.eqb_spec (length x) 0) as [|_]; [lia|]. cbv zeta.
  fold (rank p (length x)). fold idx. fold lower upper.
  assert (Hl : JS.index x lower = nth (Z.to_nat lower) x d).
  { rewrite <- (Z2Nat.id lower) at 1 by lia. apply index_nth. lia. }
  assert (Hu : JS.index x upper = nth (Z.to_nat upper) x d).
  { rewrite <- (Z2Nat.id upper) at 1 by lia. apply index_nth. lia. }
  rewrite Hl, Hu. reflexivity.
Qed.

Lemma percentile_interpolates_witness :
  let x := [JS.Num 3; JS.Num 7; JS.Num 20] in
  (Rater.percentile x 0 = JS.Num 3
   /\ Rater.percentile x 100 = JS.Num 20
   /\ Rater.percentile x 50 = JS.Num 7)
  /\ (Qfloor (rank 25 3) = 0%Z /\ Qceiling (rank 25 3) = 1%Z
      /\ Rater.percentile x 25 = interpolate (JS.Num 3) (JS.Num 7) (rank 25 3 - 0)
      /\ RaterV2.percentile x 25 = Rater.percentile x 25).
Proof.
  intros x.
  destruct (percentile_interpolates x JS.Null ltac:(discriminate))
    as ((H0 & H100 & H50) & _ & H).
  split.
  - split; [exact H0|]. split; [exact H100|]. apply H50. exists 1%nat. reflexivity.
  - assert (H25 : binary64 25) by (apply (binary64_integer 25); reflexivity).
    assert (Hq : binary64 (25 / 100)).
    { exists 1%Z, (-2)%Z. split; [reflexivity|]. split; [lia|reflexivity]. }
    assert (Hr : binary64 (rank 25 3)).
    { exists 1%Z, (-1)%Z. split; [reflexivity|]. split; [lia|reflexivity]. }
    destruct (H 25 ltac:(discriminate) ltac:(discriminate) H25 Hq Hr)
      as (_ & _ & _ & E & E2).
    split; [reflexivity|]. split; [reflexivity|]. split; [exact E|exact E2].
Defined.

(** ** Scores *)

Section ScoreFacts.
Variables (show locale : JS.value -> string).
Variables (medianPPS medianPrice : JS.value) (stats : gmap string NStats).
Variable l : Listing.t.

Local Ltac by_cases :=
  repeat case_match; simplify_eq/=; try reflexivity; try discriminate.

Lemma ratePrice_score (s : Z) (r : list string) :
  (Rater.ratePrice show medianPPS medianPrice stats l s r).1
  = priceScore medianPPS medianPrice stats l s.
Proof.
  unfold Rater.ratePrice, priceScore, areaBonus, ladder, coarseLadder.
  by_cases.
Qed.

Lemma rateLand_score (s : Z) (r : list string) :
  (Rater.rateLand l s r).1 = landScore l s.
Proof. unfold Rater.rateLand, landScore, landBonus. by_cases. Qed.

Lemma rate_rating :
  Rated.rating (Rater.rate show medianPPS medianPrice stats l)
  = finalScore medianPPS medianPrice stats l.
Proof.
  unfold Rater.rate, finalScore.
  rewrite <- (ratePrice_score 5 []).
  destruct (Rater.ratePrice _ _ _ _ _ _ _) as [s r]. cbn [fst].
  rewrite <- (rateLand_score s r).
  now destruct (Rater.rateLand _ _ _) as [s' r'].
Qed.

Lemma rate_label :
  Rated.label (Rater.rate show medianPPS medianPrice stats l)
  = labelOf (finalScore medianPPS medianPrice stats l).
Proof.
  rewrite <- rate_rating. unfold Rater.rate.
  destruct (Rater.ratePrice _ _ _ _ _ _ _) as [s r].
  now destruct (Rater.rateLand _ _ _) as [s' r'].
Qed.

Lemma rate_listing :
  Rated.listing (Rater.rate show medianPPS medianPrice stats l) = l.
Proof.
  unfold Rater.rate.
  destruct (Rater.ratePrice _ _ _ _ _ _ _) as [s r].
  now destruct (Rater.rateLand _ _ _) as [s' r'].
Qed.

Lemma rate_medianPPS :
  Rated.medianPPS (Rater.rate show medianPPS medianPrice stats l)
  = JS.round (JS.or_else medianPPS (JS.Num 0)).
Proof.
  unfold Rater.rate.
  destruct (Rater.ratePrice _ _ _ _ _ _ _) as [s r].
  now destruct (Rater.rateLand _ _ _) as [s' r'].
Qed.

Lemma ratePrice2_score (a : RaterV2.acc) :
  RaterV2.score (RaterV2.ratePrice show locale medianPPS medianPrice stats l a)
  = priceScore medianPPS medianPrice stats l (RaterV2.score a).
Proof.
  unfold RaterV2.ratePrice, priceScore, areaBonus, ladder, coarseLadder.
  by_cases.
Qed.

Lemma rateLand2_score (a : RaterV2.acc) :
  RaterV2.score (RaterV2.rateLand show l a) = landScore l (RaterV2.score a).
Proof. unfold RaterV2.rateLand, landScore, landBonus. by_cases. Qed.

Lemma addContext_score (a : RaterV2.acc) :
  RaterV2.score (RaterV2.addContext show locale l a) = RaterV2.score a.
Proof. unfold RaterV2.addContext. by_cases. Qed.

Lemma rate2_rating :
  Rated.rating (RaterV2.rate show locale medianPPS medianPrice stats l)
  = finalScore medianPPS medianPrice stats l.
Proof.
  unfold RaterV2.rate, finalScore. cbn [Rated.rating RaterV2.setScore RaterV2.score].
  now rewrite addContext_score, rateLand2_score, ratePrice2_score.
Qed.

Lemma rate2_label :
  Rated.label (RaterV2.rate show locale medianPPS medianPrice stats l)
  = labelOf (finalScore medianPPS medianPrice stats l).
Proof. rewrite <- rate2_rating. reflexivity. Qed.

End ScoreFacts.

Lemma finalScore_bounds medianPPS medianPrice stats l :
  (1 <= finalScore medianPPS medianPrice stats l <= 10)%Z.
Proof. unfold finalScore. lia. Qed.

Lemma labelOf_spec (score : Z) :
  (labelOf score = "MUST BUY"%string <-> (9 <= score)%Z)
  /\ ((score < 9)%Z -> labelOf score = EmptyString).
Proof.
  unfold labelOf. destruct (Z.leb_spec 9 score); split.
  - split; [lia|reflexivity].
  - lia.
  - split; [discriminate|lia].
  - reflexivity.
Qed.

(** ** Ratings and labels *)

Lemma wellRated_final (r : Rated.t) medianPPS medianPrice stats l :
  Rated.rating r = finalScore medianPPS medianPrice stats l ->
  Rated.label r = labelOf (finalScore medianPPS medianPrice stats l) ->
  wellRated r.
Proof.
  intros Hr Hl. unfold wellRated. rewrite Hr, Hl.
  split; [apply finalScore_bounds|apply labelOf_spec].
Qed.

Lemma wellRated_unrated (l : Listing.t) : wellRated (Rater.unrated l).
Proof.
  unfold wellRated; simpl. repeat split; try lia; discriminate.
Qed.

Lemma Forall_sort {A : Type} (cmp : A -> A -> JS.value) (P : A -> Prop) (l : list A) :
  List.Forall P l -> List.Forall P (JS.sort cmp l).
Proof.
  rewrite !List.Forall_forall. intros H x Hx. apply H. now apply sort_In in Hx.
Qed.

Lemma Forall_map_all {A B : Type} (f : A -> B) (P : B -> Prop) (l : list A) :
  (forall a, P (f a)) -> List.Forall P (map f l).
Proof.
  intros H. rewrite List.Forall_forall. intros b Hb.
  apply in_map_iff in Hb as (a & <- & _). apply H.
Qed.

(** C1.  Every rated listing [rateListings] returns has a rating from 1 to
    10; its label is [MUST BUY] if and only if the rating is at least 9, and
    the empty string otherwise.  Both versions of the rater. *)
Theorem rateListings_rating_label (show locale : JS.value -> string)
    (listings : list Listing.t) :
  List.Forall wellRated (Rater.rateListings show listings)
  /\ List.Forall wellRated (RaterV2.rateListings show locale listings).
Proof.
  unfold Rater.rateListings, Rater.rateListingsWith,
    RaterV2.rateListings, RaterV2.rateListingsWith.
  destruct (length listings =? 0)%nat; [split; constructor|].
  split.
  - destruct (length (List.filter Rater.hasPrice listings) =? 0)%nat.
    + apply Forall_map_all, wellRated_unrated.
    + apply Forall_sort, Forall_map_all. intros l.
      eapply wellRated_final; [apply rate_rating|apply rate_label].
  - destruct (length (List.filter RaterV2.hasPrice listings) =? 0)%nat.
    + apply Forall_map_all, wellRated_unrated.
    + apply Forall_sort, Forall_map_all. intros l.
      eapply wellRated_final; [apply rate2_rating|apply rate2_label].
Qed.

(** ** Nothing priced *)

Lemma Qltb_lt (x y : Q) : JS.Qltb x y = true <-> x < y.
Proof.
  unfold JS.Qltb. rewrite negb_true_iff.
  destruct (Qle_bool y x) eqn:H.
  - apply Qle_bool_iff in H. split; [discriminate|]. intros Hlt.
    exfalso. now apply (Qlt_not_le _ _ Hlt).
  - split; [intros _|reflexivity].
    apply Qnot_le_lt. intros Hle. apply Qle_bool_iff in Hle. congruence.
Qed.

Lemma hasPrice_usable (l : Listing.t) : Rater.hasPrice l = true <-> usablePrice l.
Proof.
  unfold Rater.hasPrice, usablePrice, JS.gt, JS.lt.
  destruct (Listing.price l) as [| | |q]; simpl.
  - split; [discriminate|]. now intros (q & H & _).
  - split; [discriminate|]. now intros (q & H & _).
  - split; [discriminate|]. now intros (q & H & _).
  - rewrite andb_true_iff, Qltb_lt. split.
    + intros [_ Hq]. now exists q.
    + intros (q' & [= <-] & Hq). split; [|assumption].
      apply negb_true_iff. destruct (Qeq_bool q 0) eqn:E; [|reflexivity].
      apply Qeq_bool_eq in E. rewrite E in Hq. now apply Qlt_irrefl in Hq.
Qed.

Lemma filter_none {A : Type} (f : A -> bool) (l : list A) :
  (forall a, In a l -> f a = false) -> List.filter f l = [].
Proof.
  induction l as [|a t IH]; intros H; [reflexivity|].
  simpl. rewrite (H a) by now left. apply IH. intros b Hb. apply H. now right.
Qed.

(** C3.  [rateListings([])] is [[]].  When the list is not empty and no
    listing has a usable price, the result is the input, in its order, each
    listing with rating 5, the empty label and the "no data" reason; the
    result is the same whatever function stands for [percentile], which is
    therefore not consulted.  Both versions of the rater. *)
Theorem rateListings_nothing_priced
    (pctl : list JS.value -> Q -> JS.value) (show locale : JS.value -> string)
    (listings : list Listing.t) :
  Rater.rateListingsWith pctl show [] = []
  /\ RaterV2.rateListingsWith pctl show locale [] = []
  /\ (listings <> [] ->
      (forall l, In l listings -> ~ usablePrice l) ->
      Rater.rateListingsWith pctl show listings = map neutral listings
      /\ RaterV2.rateListingsWith pctl show locale listings = map neutral listings).
Proof.
  split; [reflexivity|]. split; [reflexivity|].
  intros Hne Hnone.
  assert (Hf : List.filter Rater.hasPrice listings = []).
  { apply filter_none. intros l Hl.
    destruct (Rater.hasPrice l) eqn:E; [|reflexivity].
    apply hasPrice_usable in E. now apply Hnone in E. }
  unfold Rater.rateListingsWith, RaterV2.rateListingsWith.
  change RaterV2.hasPrice with Rater.hasPrice. rewrite Hf.
  destruct listings; [congruence|]. split; reflexivity.
Qed.

Lemma rateListings_nothing_priced_witness :
  let l := Listing.mk "7" "Kuca" EmptyString JS.Null (JS.Num 900) JS.Null JS.Null
             None EmptyString 0 EmptyString "Grocka" "beograd-grocka" in
  Rater.rateListings (fun _ => "?"%string) [l] = [neutral l]
  /\ RaterV2.rateListings (fun _ => "?"%string) (fun _ => "?"%string) [l] = [neutral l].
Proof.
  intros l.
  refine (proj2 (proj2 (rateListings_nothing_priced Rater.percentile
                          (fun _ => "?"%string) (fun _ => "?"%string) [l])) _ _).
  - discriminate.
  - intros l' [<-|[]] (q & Hq & _). discriminate Hq.
Defined.

(** ** The two versions *)

Lemma rate_core (show : JS.value -> string) medianPPS medianPrice stats l :
  core (Rater.rate show medianPPS medianPrice stats l)
  = (l, finalScore medianPPS medianPrice stats l,
     labelOf (finalScore medianPPS medianPrice stats l),
     JS.round (JS.or_else medianPPS (JS.Num 0))).
Proof.
  unfold core. now rewrite rate_listing, rate_rating, rate_label, rate_medianPPS.
Qed.

Lemma rate2_core (show locale : JS.value -> string) medianPPS medianPrice stats l :
  core (RaterV2.rate show locale medianPPS medianPrice stats l)
  = (l, finalScore medianPPS medianPrice stats l,
     labelOf (finalScore medianPPS medianPrice stats l),
     JS.round (JS.or_else medianPPS (JS.Num 0))).
Proof.
  unfold core. rewrite rate2_rating, rate2_label. reflexivity.
Qed.

(** The comparator reads the rating and the two prices only. *)
Lemma compareRated_core (a a' b b' : Rated.t) :
  core a = core a' -> core b = core b' ->
  Rater.compareRated a b = RaterV2.compareRated a' b'.
Proof.
  unfold core, Rater.compareRated, RaterV2.compareRated, Rated.pricePerSqm, Rated.price.
  intros [= -> -> _ _] [= -> -> _ _]. reflexivity.
Qed.

Section SortRelated.
Context {A B : Type} (R : A -> B -> Prop).
Context (cmpA : A -> A -> JS.value) (cmpB : B -> B -> JS.value).
Hypothesis cmp_related :
  forall a a' b b', R a a' -> R b b' -> cmpA a b = cmpB a' b'.

Lemma insert_related (x : A) (x' : B) (l : list A) (l' : list B) :
  R x x' -> Forall2 R l l' ->
  Forall2 R (JS.insert cmpA x l) (JS.insert cmpB x' l').
Proof.
  intros Hx Hl. induction Hl as [|h h' t t' Hh Ht IH]; simpl.
  - now repeat constructor.
  - unfold JS.after. rewrite (cmp_related x x' h h' Hx Hh).
    destruct (JS.gt (cmpB x' h') (JS.Num 0)); now repeat constructor.
Qed.

Lemma sort_related (l : list A) (l' : list B) :
  Forall2 R l l' -> Forall2 R (JS.sort cmpA l) (JS.sort cmpB l').
Proof.
  induction 1 as [|x x' t t' Hx Ht IH]; simpl; [constructor|].
  now apply insert_related.
Qed.
End SortRelated.

Lemma Forall2_map_same {A B C : Type} (R : B -> C -> Prop)
    (f : A -> B) (g : A -> C) (l : list A) :
  (forall a, R (f a) (g a)) -> Forall2 R (map f l) (map g l).
Proof. intros H. induction l; simpl; now constructor. Qed.

Lemma Forall2_core_map (l l' : list Rated.t) :
  Forall2 (fun a b => core a = core b) l l' -> map core l = map core l'.
Proof. induction 1; simpl; congruence. Qed.

Lemma rateListingsWith_core_agree (pctl : list JS.value -> Q -> JS.value)
    (show1 show2 locale : JS.value -> string) (listings : list Listing.t) :
  map core (Rater.rateListingsWith pctl show1 listings)
  = map core (RaterV2.rateListingsWith pctl show2 locale listings).
Proof.
  unfold Rater.rateListingsWith, RaterV2.rateListingsWith.
  change RaterV2.hasPrice with Rater.hasPrice.
  destruct (length listings =? 0)%nat; [reflexivity|].
  destruct (length (List.filter Rater.hasPrice listings) =? 0)%nat; [reflexivity|].
  apply Forall2_core_map, sort_related.
  - intros a a' b b'. apply compareRated_core.
  - unfold Rater.ratedBeforeSort, RaterV2.ratedBeforeSort.
    apply Forall2_map_same. intros l.
    rewrite rate_core, rate2_core. reflexivity.
Qed.

(** C9.  The two versions of [rateListings] return the same listings in the
    same order with the same rating, label and [medianPPS]; only the
    justification ([ratingReason], [ratingPros], [ratingCons]) can differ. *)
Theorem rateListings_versions_agree (show1 show2 locale : JS.value -> string)
    (listings : list Listing.t) :
  map core (Rater.rateListings show1 listings)
  = map core (RaterV2.rateListings show2 locale listings).
Proof. apply rateListingsWith_core_agree. Qed.

(** ** The order of the result *)





















(** The definitions with the insertion sort are those on the engine
    [insertionSort]. *)
Lemma rateListingsOn_insertionSort (show locale : JS.value -> string)
    (listings : list Listing.t) :
  Rater.rateListingsOn JS.insertionSort show listings = Rater.rateListings show listings
  /\ RaterV2.rateListingsOn JS.insertionSort show locale listings
     = RaterV2.rateListings show locale listings.
Proof. split; reflexivity. Qed.

Lemma unpricedPair_result :
  map core (Rater.rateListings blank unpricedPair)
  = [(house "1" JS.Null (JS.Num 200) "Grocka", 5%Z, EmptyString, JS.Undefined);
     (house "2" JS.Null (JS.Num 100) "Grocka", 5%Z, EmptyString, JS.Undefined)].
Proof. reflexivity. Qed.



(** With a price somewhere, an order in which every two listings are in
    order may not exist at all: in [cyclicFour] three listings rated 6 are
    before one another in a circle (the comparator is not consistent), so
    that no arrangement of the rated array has every two listings in
    order, whatever the engine. *)
Lemma rateListings_cycle_no_order (out : list Rated.t) :
  Permutation out (Rater.ratedBeforeSort Rater.percentile blank cyclicFour) ->
  ~ StronglySorted inOrder out.
Proof.
  intros Hperm. symmetry in Hperm. apply permutations_Permutation in Hperm.
  revert out Hperm. apply Forall_forall.
  apply (bool_decide_unpack _). vm_compute. reflexivity.
Qed.

(** ** The ladder on a scenario *)

Lemma ratedBeforeSort_map (show : JS.value -> string) (listings : list Listing.t) :
  Rater.ratedBeforeSort Rater.percentile show listings
  = map (Rater.rate show (globalMedianPPS listings) (globalMedianPrice listings)
           (areaStats listings)) listings.
Proof. reflexivity. Qed.

Lemma ratedBeforeSort2_map (show locale : JS.value -> string) (listings : list Listing.t) :
  RaterV2.ratedBeforeSort RaterV2.percentile show locale listings
  = map (RaterV2.rate show locale (globalMedianPPS listings) (globalMedianPrice listings)
           (areaStats listings)) listings.
Proof. reflexivity. Qed.









(** ** [deduplicate] *)

Section Deduplicate.
Import Scraper.

Local Abbreviation sameId k := (fun x : Listing.t => String.eqb (Listing.id x) k).

Lemma keepUnseen_sublist (seen : gset string) (listings : list Listing.t) :
  keepUnseen seen listings `sublist_of` listings.
Proof.
  revert seen. induction listings as [|x t IH]; intros seen; simpl.
  - constructor.
  - destruct (_ || _); [apply sublist_cons|apply sublist_skip]; apply IH.
Qed.

Lemma keepUnseen_In (seen : gset string) (listings : list Listing.t) (l : Listing.t) :
  In l (keepUnseen seen listings)
  <-> Listing.id l <> EmptyString /\ (Listing.id l ∉ seen)
      /\ List.find (sameId (Listing.id l)) listings = Some l.
Proof.
  revert seen. induction listings as [|x t IH]; intros seen; simpl.
  - split; [contradiction|]. now intros (_ & _ & ?).
  - destruct (String.eqb_spec (Listing.id x) EmptyString) as [Hx|Hx]; simpl.
    + rewrite IH.
      destruct (String.eqb_spec (Listing.id x) (Listing.id l)) as [E|E]; [|reflexivity].
      split; [intros (H & _); congruence|intros (H & _); congruence].
    + case_bool_decide as Hs.
      * rewrite IH.
        destruct (String.eqb_spec (Listing.id x) (Listing.id l)) as [E|E]; [|reflexivity].
        split; [intros (_ & H & _)|intros (_ & H & _)]; rewrite <- E in H; contradiction.
      * simpl. rewrite IH.
        destruct (String.eqb_spec (Listing.id x) (Listing.id l)) as [E|E].
        -- split.
           ++ intros [->|(_ & H & _)]; [auto|].
              exfalso. apply H, elem_of_union_l, elem_of_singleton. now symmetry.
           ++ intros (_ & _ & [= ->]). now left.
        -- split.
           ++ intros [->|(H1 & H2 & H3)]; [congruence|].
              apply not_elem_of_union in H2 as [_ H2]. auto.
           ++ intros (H1 & H2 & H3). right. repeat split; [assumption| |assumption].
              apply not_elem_of_union. split; [|assumption].
              rewrite elem_of_singleton. congruence.
Qed.

Lemma keepUnseen_NoDup (seen : gset string) (listings : list Listing.t) :
  NoDup (map Listing.id (keepUnseen seen listings)).
Proof.
  revert seen. induction listings as [|x t IH]; intros seen; simpl.
  - constructor.
  - destruct (_ || _); [apply IH|]. simpl.
    apply NoDup_cons_2; [|apply IH].
    rewrite list_elem_of_In, in_map_iff. intros (l & Hid & Hl).
    apply keepUnseen_In in Hl as (_ & Hl & _).
    apply Hl, elem_of_union_l, elem_of_singleton. now symmetry.
Qed.

(** C6.  [deduplicate] keeps at most one listing per id; what it keeps are
    listings of the input, unchanged and in the order of the input; and a
    listing is kept exactly when it has an id and is the first listing of
    the input with that id. *)
Theorem deduplicate_first_wins (listings : list Listing.t) :
  NoDup (map Listing.id (deduplicate listings))
  /\ (deduplicate listings `sublist_of` listings)
  /\ (forall l, In l (deduplicate listings)
                <-> Listing.id l <> EmptyString
                    /\ List.find (sameId (Listing.id l)) listings = Some l).
Proof.
  unfold deduplicate. split; [apply keepUnseen_NoDup|].
  split; [apply keepUnseen_sublist|].
  intros l. rewrite keepUnseen_In. split; [tauto|].
  intros [H1 H2]. repeat split; [assumption|apply not_elem_of_empty|assumption].
Qed.

(** C10.  No listing with an empty id is in the result of [deduplicate]. *)
Theorem deduplicate_drops_empty_id (listings : list Listing.t) :
  List.Forall (fun l => Listing.id l <> EmptyString) (deduplicate listings).
Proof.
  rewrite List.Forall_forall. intros l Hl.
  now apply keepUnseen_In in Hl.
Qed.

(** Deduplicating twice changes nothing. *)
Lemma keepUnseen_again (seen seen' : gset string) (listings : list Listing.t) :
  seen' ⊆ seen ->
  keepUnseen seen' (keepUnseen seen listings) = keepUnseen seen listings.
Proof.
  revert seen seen'. induction listings as [|x t IH]; intros seen seen' Hsub; simpl.
  - reflexivity.
  - destruct (String.eqb_spec (Listing.id x) EmptyString) as [Hx|Hx]; simpl.
    + now apply IH.
    + case_bool_decide as Hs; simpl; [now apply IH|].
      destruct (String.eqb_spec (Listing.id x) EmptyString); [contradiction|].
      simpl. rewrite bool_decide_eq_false_2 by (intros H; apply Hs, Hsub, H).
      f_equal. apply IH. now apply union_mono_l.
Qed.

Lemma deduplicate_idempotent (listings : list Listing.t) :
  deduplicate (deduplicate listings) = deduplicate listings.
Proof. now apply keepUnseen_again. Qed.

End Deduplicate.

(** ** [getTotalPages] *)

Section TotalPages.
Import JS Scraper.

Lemma takeWhile_idem (p : ascii -> bool) (s : string) :
  takeWhile p (takeWhile p s) = takeWhile p s.
Proof.
  induction s as [|c r IH]; simpl; [reflexivity|].
  destruct (p c) eqn:E; simpl; [|reflexivity]. now rewrite E, IH.
Qed.

Lemma nonempty_eqb (s : string) : String.eqb s EmptyString = false -> s <> EmptyString.
Proof. intros H ->. discriminate. Qed.

Lemma totalPagesHere_digits (s ds : string) : totalPagesHere s = Some ds -> digits ds.
Proof.
  unfold totalPagesHere. intros H. repeat case_match; simplify_eq.
  split; [now apply nonempty_eqb|apply takeWhile_idem].
Qed.

Lemma matchTotalPages_digits (html ds : string) :
  matchTotalPages html = Some ds -> digits ds.
Proof.
  induction html as [|c r IH]; cbn [matchTotalPages].
  - destruct (totalPagesHere EmptyString) eqn:E; [|discriminate].
    intros [= <-]. now apply totalPagesHere_digits in E.
  - destruct (totalPagesHere (String c r)) eqn:E; [|exact IH].
    intros [= <-]. now apply totalPagesHere_digits in E.
Qed.

Lemma pageHere_digits (s ds : string) : pageHere s = Some ds -> digits ds.
Proof.
  unfold pageHere. intros H. repeat case_match; simplify_eq.
  split; [now apply nonempty_eqb|apply takeWhile_idem].
Qed.

Lemma matchPage_digits (href ds : string) : matchPage href = Some ds -> digits ds.
Proof.
  induction href as [|c r IH]; cbn [matchPage].
  - destruct (pageHere EmptyString) eqn:E; [|discriminate].
    intros [= <-]. now apply pageHere_digits in E.
  - destruct (pageHere (String c r)) eqn:E; [|exact IH].
    intros [= <-]. now apply pageHere_digits in E.
Qed.

Lemma digit_not (c d : ascii) : isDigit c = true -> isDigit d = false -> Ascii.eqb c d = false.
Proof.
  intros Hc Hd. destruct (Ascii.eqb_spec c d) as [->|]; [congruence|reflexivity].
Qed.

Lemma not_digit (c d : ascii) : isDigit c = false -> isDigit d = true -> Ascii.eqb c d = false.
Proof.
  intros Hc Hd. destruct (Ascii.eqb_spec c d) as [->|]; [congruence|reflexivity].
Qed.

Lemma digitValue_nonneg (c : ascii) : isDigit c = true -> (0 <= digitValue c)%Z.
Proof.
  unfold isDigit, digitValue. intros H. apply andb_true_iff in H as [H _].
  apply N.leb_le in H. lia.
Qed.

Lemma decimalFrom_nonneg (s : string) (acc : Z) :
  takeWhile isDigit s = s -> (0 <= acc)%Z -> (0 <= decimalFrom acc s)%Z.
Proof.
  revert acc. induction s as [|c r IH]; intros acc Hs Hacc; simpl; [assumption|].
  simpl in Hs. destruct (isDigit c) eqn:E; [|discriminate].
  injection Hs as Hr. apply IH; [assumption|].
  pose proof (digitValue_nonneg c E). lia.
Qed.

(** [parseInt] reads a run of digits as the decimal number it writes. *)
Lemma parseInt_digits (ds : string) :
  digits ds -> parseInt ds = Some (decimal ds) /\ (0 <= decimal ds)%Z.
Proof.
  intros [Hne Hds]. split; [|now apply decimalFrom_nonneg].
  destruct ds as [|c r]; [congruence|].
  simpl in Hds. destruct (isDigit c) eqn:Hc; [|discriminate].
  unfold parseInt.
  assert (Hw : dropWhile isWhiteSpace (String c r) = String c r).
  { simpl. destruct (isWhiteSpace c) eqn:E; [|reflexivity].
    exfalso. revert Hc E. unfold isDigit, isWhiteSpace.
    generalize (N_of_ascii c) as n. intros n H1 H2.
    apply andb_true_iff in H1 as [H1 H1']. apply N.leb_le in H1, H1'.
    apply orb_true_iff in H2 as [H2|H2]; [apply orb_true_iff in H2 as [H2|H2]|].
    - apply andb_true_iff in H2 as [_ H2]. apply N.leb_le in H2. lia.
    - apply N.eqb_eq in H2. lia.
    - apply N.eqb_eq in H2. lia. }
  rewrite Hw. unfold readSign.
  rewrite !(digit_not c) by (assumption || reflexivity).
  assert (Hhex : match stripPrefix "0x" (String c r) with
                 | Some r => Some r
                 | None => stripPrefix "0X" (String c r)
                 end = None).
  { cbn [stripPrefix]. destruct (Ascii.eqb "0" c); [|reflexivity].
    destruct r as [|d r']; [reflexivity|].
    injection Hds as Hr. cbn [takeWhile] in Hr.
    destruct (isDigit d) eqn:Hd; [|discriminate].
    cbn [stripPrefix]. rewrite !(fun c H => not_digit c d H Hd) by reflexivity.
    reflexivity. }
  rewrite Hhex. cbv zeta.
  replace (takeWhile isDigit (String c r)) with (String c r)
    by (simpl; rewrite Hc; congruence).
  reflexivity.
Qed.

Variables pageLinkHrefs pagerTexts : string -> list string.

Lemma largestPage_at_least_one (pages : list Z) : (1 <= largestPage pages)%Z.
Proof. unfold largestPage. induction pages; simpl; lia. Qed.

Lemma foldr_max_start (m p : Z) (l : list Z) :
  foldr Z.max (Z.max m p) l = Z.max p (foldr Z.max m l).
Proof. induction l as [|a l IH]; simpl; [lia|]. rewrite IH. lia. Qed.

Lemma foldr_max_app (m : Z) (l1 l2 : list Z) :
  foldr Z.max m (l1 ++ l2) = Z.max (foldr Z.max m l1) (foldr Z.max m l2).
Proof.
  assert (Hm : forall l, (m <= foldr Z.max m l)%Z) by (induction l; simpl; lia).
  induction l1 as [|a t IH]; simpl; [specialize (Hm l2); lia|].
  rewrite IH. lia.
Qed.

Lemma fold_left_max {A : Type} (f : Z -> A -> Z) (g : A -> option Z) (l : list A) (m : Z) :
  (forall m a, f m a = match g a with Some p => Z.max m p | None => m end) ->
  fold_left f l m = foldr Z.max m (omap g l).
Proof.
  intros Hf. revert m. induction l as [|a l IH]; intros m; simpl; [reflexivity|].
  rewrite IH, Hf. destruct (g a) as [p|]; simpl; [|reflexivity].
  apply foldr_max_start.
Qed.

Lemma seeHref_max (m : Z) (href : string) :
  seeHref m href
  = match matchPage href ≫= parseInt with Some p => Z.max m p | None => m end.
Proof.
  unfold seeHref. destruct (matchPage href) as [ds|]; simpl; [|reflexivity].
  destruct (parseInt ds) as [p|]; [|reflexivity].
  destruct (Z.ltb_spec m p); lia.
Qed.

Lemma seeText_max (m : Z) (text : string) :
  seeText m text
  = match parseInt (trim text) with Some p => Z.max m p | None => m end.
Proof.
  unfold seeText. destruct (parseInt (trim text)) as [p|]; [|reflexivity].
  destruct (Z.ltb_spec m p); lia.
Qed.

Lemma fallback_largest (html : string) :
  fold_left seeText (pagerTexts html) (fold_left seeHref (pageLinkHrefs html) 1%Z)
  = largestPage (referencedPages pageLinkHrefs pagerTexts html).
Proof.
  rewrite (fold_left_max seeText _ _ _ seeText_max).
  rewrite (fold_left_max seeHref _ _ _ seeHref_max).
  unfold largestPage, referencedPages.
  rewrite <- foldr_app, !foldr_max_app. lia.
Qed.

(** C5, as amended.  When the page embeds a total-page count,
    [getTotalPages] returns that count, whatever the pagination controls
    show: an integer that can be 0.  When it does not, [getTotalPages]
    returns the largest page number the pagination controls refer to, and
    1 when they refer to none: an integer that is never below 1.  (The
    count and the largest page number are returned as they are written
    when they are below 2^53.) *)
Theorem getTotalPages_result (html : string) :
  (forall ds, matchTotalPages html = Some ds ->
              (exists t, getTotalPages pageLinkHrefs pagerTexts html = Some t /\ (0 <= t)%Z)
              /\ (safeInteger (decimal ds) ->
                  getTotalPages pageLinkHrefs pagerTexts html = Some (decimal ds)))
  /\ (matchTotalPages html = None ->
      (exists t, getTotalPages pageLinkHrefs pagerTexts html = Some t /\ (1 <= t)%Z)
      /\ (safeInteger (largestPage (referencedPages pageLinkHrefs pagerTexts html)) ->
          getTotalPages pageLinkHrefs pagerTexts html
          = Some (largestPage (referencedPages pageLinkHrefs pagerTexts html)))).
Proof.
  unfold getTotalPages. split.
  - intros ds Hds. rewrite Hds.
    destruct (parseInt_digits ds) as [-> Hpos]; [now apply matchTotalPages_digits in Hds|].
    split; [now exists (decimal ds)|reflexivity].
  - intros ->. rewrite fallback_largest.
    split; [|reflexivity]. eexists. split; [reflexivity|apply largestPage_at_least_one].
Qed.

End TotalPages.

Lemma getTotalPages_result_witness :
  Scraper.getTotalPages pagerLinks noLinks twelvePages = Some 12%Z
  /\ Scraper.getTotalPages pagerLinks noLinks pagerOnly = Some 3%Z.
Proof.
  split.
  - refine (proj2 (proj1 (getTotalPages_result pagerLinks noLinks twelvePages)
                     "12"%string eq_refl) _).
    unfold safeInteger. vm_compute. reflexivity.
  - refine (proj2 (proj2 (getTotalPages_result pagerLinks noLinks pagerOnly) eq_refl) _).
    unfold safeInteger. vm_compute. reflexivity.
Defined.

(** C5 as stated fails: the embedded count is returned as it is, and it can
    be 0. *)
Lemma getTotalPages_zero :
  Scraper.getTotalPages noLinks noLinks zeroPages = Some 0%Z.
Proof. reflexivity. Qed.

(** ** [parseSqm] *)

Lemma parseFloat_not_null (s : string) : JS.parseFloat s <> JS.Null.
Proof.
  unfold JS.parseFloat. repeat case_match; discriminate.
Qed.

(** [parseSqm] answers [null] exactly for the empty text and for a text
    with no character of a number in it. *)
Lemma parseSqm_null_iff (text : string) :
  Scraper.parseSqm text = JS.Null
  <-> text = EmptyString
      \/ JS.firstRun Scraper.isNumberChar (JS.removeAll JS.isWhiteSpace text) = None.
Proof.
  unfold Scraper.parseSqm.
  destruct (String.eqb_spec text EmptyString) as [->|Hne].
  - split; [now left|reflexivity].
  - destruct (JS.firstRun _ _) as [m|].
    + split; [intros H; now apply parseFloat_not_null in H|].
      intros [H|H]; [contradiction|discriminate].
    + split; [now right|reflexivity].
Qed.

(** C7, where the code departs from it.  In [n.a.] the token [parseSqm]
    finds is a lone point: [parseFloat] reads no number in it and
    [parseSqm] returns [NaN], neither a number nor [null].  [parsePrice]
    turns the same [NaN] into [null]. *)
Theorem parseSqm_token_without_digit :
  JS.firstRun Scraper.isNumberChar (JS.removeAll JS.isWhiteSpace "n.a.") = Some "."%string
  /\ Scraper.parseSqm "n.a." = JS.NaN
  /\ Scraper.parsePrice (Some "n.a."%string) = JS.Null.
Proof. repeat split. Qed.

(** * Further properties *)

(** ** The rater: what a result contains *)

Lemma map_listing_rate (show : JS.value -> string) m mp st (ls : list Listing.t) :
  map Rated.listing (map (Rater.rate show m mp st) ls) = ls.
Proof.
  induction ls as [|l t IH]; simpl; [reflexivity|]. now rewrite rate_listing, IH.
Qed.

Lemma map_listing_rate2 (show locale : JS.value -> string) m mp st (ls : list Listing.t) :
  map Rated.listing (map (RaterV2.rate show locale m mp st) ls) = ls.
Proof. induction ls as [|l t IH]; simpl; [reflexivity|]. now rewrite IH. Qed.

Lemma map_listing_unrated (ls : list Listing.t) :
  map Rated.listing (map Rater.unrated ls) = ls.
Proof. induction ls as [|l t IH]; simpl; [reflexivity|]. now rewrite IH. Qed.

Lemma rateListings_perm (show locale : JS.value -> string) (listings : list Listing.t) :
  Permutation (map Rated.listing (Rater.rateListings show listings)) listings
  /\ Permutation (map Rated.listing (RaterV2.rateListings show locale listings)) listings.
Proof.
  unfold Rater.rateListings, Rater.rateListingsWith,
    RaterV2.rateListings, RaterV2.rateListingsWith.
  change RaterV2.hasPrice with Rater.hasPrice.
  destruct listings as [|l0 t]; [split; reflexivity|].
  cbn [length Nat.eqb].
  destruct (length (List.filter Rater.hasPrice (l0 :: t)) =? 0)%nat.
  - split; now rewrite map_listing_unrated.
  - split.
    + rewrite (Permutation_map Rated.listing (sort_perm _ _)).
      rewrite ratedBeforeSort_map. now rewrite map_listing_rate.
    + rewrite (Permutation_map Rated.listing (sort_perm _ _)).
      rewrite ratedBeforeSort2_map. now rewrite map_listing_rate2.
Qed.

(** X1.  [rateListings] rates every listing of the input once: the listings
    of its result are those of the input, rearranged; none is lost, none is
    added.  Both versions of the rater. *)
Theorem rateListings_keeps_listings (show locale : JS.value -> string)
    (listings : list Listing.t) :
  Permutation (map Rated.listing (Rater.rateListings show listings)) listings
  /\ Permutation (map Rated.listing (RaterV2.rateListings show locale listings)) listings.
Proof. apply rateListings_perm. Qed.

(** The rating of a rated listing is 5 on the path without prices and the
    final score against the statistics otherwise. *)
Lemma rateListings_rating_cases (show locale : JS.value -> string)
    (listings : list Listing.t) (r : Rated.t) :
  In r (Rater.rateListings show listings)
  \/ In r (RaterV2.rateListings show locale listings) ->
  In (Rated.listing r) listings
  /\ ((Rated.rating r = 5%Z /\ Rated.medianPPS r = JS.Undefined
       /\ forall l, In l listings -> ~ usablePrice l)
      \/ (Rated.rating r
          = finalScore (globalMedianPPS listings) (globalMedianPrice listings)
              (areaStats listings) (Rated.listing r)
          /\ Rated.medianPPS r
             = JS.round (JS.or_else (globalMedianPPS listings) (JS.Num 0))
          /\ exists l, In l listings /\ usablePrice l)).
Proof.
  unfold Rater.rateListings, Rater.rateListingsWith,
    RaterV2.rateListings, RaterV2.rateListingsWith.
  change RaterV2.hasPrice with Rater.hasPrice.
  destruct (length listings =? 0)%nat; [intros [[]|[]]|].
  destruct (List.filter Rater.hasPrice listings) as [|p ps] eqn:Hf; cbn [length Nat.eqb].
  - intros Hr.
    assert (Hin : In r (map Rater.unrated listings)) by (destruct Hr; assumption).
    apply in_map_iff in Hin as (l & <- & Hl). split; [assumption|]. left.
    repeat split. intros l' Hl' Hu. apply hasPrice_usable in Hu.
    assert (In l' (List.filter Rater.hasPrice listings)) by now apply filter_In.
    rewrite Hf in *. contradiction.
  - assert (Hp : exists l, In l listings /\ usablePrice l).
    { exists p. assert (In p (List.filter Rater.hasPrice listings)) by (rewrite Hf; now left).
      apply filter_In in H as [? ?]. split; [assumption|]. now apply hasPrice_usable. }
    rewrite !sort_In, ratedBeforeSort_map, ratedBeforeSort2_map, !in_map_iff.
    intros [(l & <- & Hl)|(l & <- & Hl)].
    + rewrite rate_listing, rate_rating, rate_medianPPS. split; [assumption|]. now right.
    + rewrite rate2_rating. split; [assumption|]. now right.
Qed.

Lemma coarseLadder_range (ratio : JS.value) : (3 <= coarseLadder ratio <= 8)%Z.
Proof. unfold coarseLadder. repeat case_match; lia. Qed.

Lemma ladder_range (ratio : JS.value) : (1 <= ladder ratio <= 10)%Z.
Proof. unfold ladder. repeat case_match; lia. Qed.

Lemma finalScore_without_pps m mp st (l : Listing.t) :
  Rater.hasPPS l = false ->
  (3 <= finalScore m mp st l <= 9)%Z
  /\ (JS.truthy (Listing.price l) = false -> finalScore m mp st l = 5%Z).
Proof.
  intros Hpps. unfold finalScore, landScore, priceScore.
  unfold Rater.hasPPS in Hpps. rewrite Hpps. cbn [andb].
  split.
  - pose proof (coarseLadder_range (JS.div (Listing.price l) mp)).
    repeat case_match; lia.
  - intros Hp. unfold landBonus. rewrite Hp. cbn [andb]. rewrite andb_false_r.
    cbn [andb]. reflexivity.
Qed.

(** X2.  A listing without a positive price per m² is rated from 3 to 9,
    never 10, and exactly 5 when it has no price either.  Both versions of
    the rater. *)
Theorem rateListings_without_pps (show locale : JS.value -> string)
    (listings : list Listing.t) (r : Rated.t) :
  In r (Rater.rateListings show listings)
  \/ In r (RaterV2.rateListings show locale listings) ->
  Rater.hasPPS (Rated.listing r) = false ->
  (3 <= Rated.rating r <= 9)%Z
  /\ (JS.truthy (Rated.price r) = false -> Rated.rating r = 5%Z).
Proof.
  intros Hr Hpps.
  destruct (rateListings_rating_cases show locale listings r Hr)
    as [_ [(-> & _)|(-> & _)]].
  - split; [lia|reflexivity].
  - now apply finalScore_without_pps.
Qed.

Lemma rateListings_without_pps_witness :
  let r := nth 1 (Rater.rateListings blank mixedFour) (neutral (house "0" JS.Null JS.Null EmptyString)) in
  (3 <= Rated.rating r <= 9)%Z
  /\ (JS.truthy (Rated.price r) = false -> Rated.rating r = 5%Z).
Proof.
  intros r.
  apply (rateListings_without_pps blank blank mixedFour r).
  - left. vm_compute. right. left. reflexivity.
  - reflexivity.
Defined.

(** X3.  All the rated listings of one result carry the same [medianPPS].
    Both versions of the rater. *)
Theorem rateListings_one_medianPPS (show locale : JS.value -> string)
    (listings : list Listing.t) (r1 r2 : Rated.t) :
  In r1 (Rater.rateListings show listings)
  \/ In r1 (RaterV2.rateListings show locale listings) ->
  In r2 (Rater.rateListings show listings)
  \/ In r2 (RaterV2.rateListings show locale listings) ->
  Rated.medianPPS r1 = Rated.medianPPS r2.
Proof.
  intros H1 H2.
  destruct (rateListings_rating_cases show locale listings r1 H1)
    as [Hl1 [(_ & -> & Hn)|(_ & -> & Hp)]],
    (rateListings_rating_cases show locale listings r2 H2)
    as [Hl2 [(_ & -> & Hn')|(_ & -> & Hp')]]; try reflexivity.
  - destruct Hp' as (l & Hl & Hu). now apply Hn in Hu.
  - destruct Hp as (l & Hl & Hu). now apply Hn' in Hu.
Qed.

Lemma rateListings_one_medianPPS_witness :
  let r1 := nth 0 (Rater.rateListings blank fivePriced) (neutral (house "0" JS.Null JS.Null EmptyString)) in
  let r2 := nth 4 (RaterV2.rateListings blank blank fivePriced)
              (neutral (house "0" JS.Null JS.Null EmptyString)) in
  Rated.medianPPS r1 = Rated.medianPPS r2.
Proof.
  intros r1 r2.
  apply (rateListings_one_medianPPS blank blank fivePriced r1 r2).
  - left. vm_compute. left. reflexivity.
  - right. vm_compute. do 4 right. left. reflexivity.
Defined.

(** ** [percentile] between its neighbours *)

(** For an array of numbers and [p] from 0 to 100, [percentile] is a number
    on the segment between two elements of the array. *)
Lemma percentile_segment (x : list JS.value) (p : Q) :
  x <> [] -> 0 <= p -> p <= 100 ->
  List.Forall (fun v => exists q, v = JS.Num q) x ->
  exists a b t q,
    In (JS.Num a) x /\ In (JS.Num b) x /\ 0 <= t /\ t <= 1
    /\ Rater.percentile x p = JS.Num q /\ q == a + (b - a) * t.
Proof.
  intros Hne Hp0 Hp100 Hnum.
  assert (Hn : (0 < length x)%nat) by (destruct x; [congruence|simpl; lia]).
  destruct (rank_in_range (length x) p Hn Hp0 Hp100) as (Hf & Hc & Ht0 & Ht1).
  unfold Rater.percentile.
  destruct (Nat.eqb_spec (length x) 0) as [|_]; [lia|]. cbv zeta.
  set (idx := (p / 100) * (inject_Z (Z.of_nat (length x)) - 1)) in *.
  pose proof (index_in_range x (Qfloor idx) Hf) as Ha.
  pose proof (index_in_range x (Qceiling idx) Hc) as Hb.
  rewrite List.Forall_forall in Hnum.
  destruct (Hnum _ Ha) as [a Ea], (Hnum _ Hb) as [b Eb].
  rewrite Ea, Eb in *.
  destruct (Qfloor idx =? Qceiling idx)%Z.
  - exists a, a, 0, a. repeat split; try assumption; lra.
  - exists a, b, (idx - inject_Z (Qfloor idx)), (a + (b - a) * (idx - inject_Z (Qfloor idx))).
    repeat split; try assumption; reflexivity.
Qed.

(** X4.  For a non-empty array of numbers that all lie between [lo] and
    [hi], and [p] from 0 to 100, [percentile] is a number between [lo] and
    [hi]: it reads no index outside the array and interpolates between two
    of the elements.  Both versions of the rater. *)
Theorem percentile_within_bounds (qs : list Q) (p lo hi : Q) :
  qs <> [] -> 0 <= p -> p <= 100 ->
  List.Forall (fun q => lo <= q /\ q <= hi) qs ->
  exists q, Rater.percentile (map JS.Num qs) p = JS.Num q
            /\ RaterV2.percentile (map JS.Num qs) p = JS.Num q
            /\ lo <= q /\ q <= hi.
Proof.
  intros Hne Hp0 Hp100 Hb.
  destruct (percentile_segment (map JS.Num qs) p) as (a & b & t & q & Ha & Hb' & Ht0 & Ht1 & E & Hq);
    try assumption.
  - destruct qs; [congruence|discriminate].
  - apply Forall_map_all. eauto.
  - exists q. rewrite percentile_versions_agree. repeat split; try assumption.
    + apply in_map_iff in Ha as (a' & [= <-] & Ha), Hb' as (b' & [= <-] & Hb').
      rewrite List.Forall_forall in Hb. destruct (Hb _ Ha), (Hb _ Hb'). rewrite Hq. nra.
    + apply in_map_iff in Ha as (a' & [= <-] & Ha), Hb' as (b' & [= <-] & Hb').
      rewrite List.Forall_forall in Hb. destruct (Hb _ Ha), (Hb _ Hb'). rewrite Hq. nra.
Qed.

Lemma percentile_within_bounds_witness :
  exists q, Rater.percentile (map JS.Num [10; 20; 40; 80]) 25 = JS.Num q
            /\ RaterV2.percentile (map JS.Num [10; 20; 40; 80]) 25 = JS.Num q
            /\ 10 <= q /\ q <= 80.
Proof.
  apply (percentile_within_bounds [10; 20; 40; 80] 25 10 80).
  - discriminate.
  - discriminate.
  - discriminate.
  - repeat constructor; discriminate.
Defined.

(** ** The rater: cheaper is never rated lower *)

Lemma hasPPS_positive (l : Listing.t) :
  Rater.hasPPS l = true <-> exists q, Listing.pricePerSqm l = JS.Num q /\ 0 < q.
Proof.
  unfold Rater.hasPPS, JS.gt, JS.lt.
  destruct (Listing.pricePerSqm l) as [| | |q]; simpl.
  - split; [discriminate|]. now intros (q & H & _).
  - split; [discriminate|]. now intros (q & H & _).
  - split; [discriminate|]. now intros (q & H & _).
  - rewrite andb_true_iff, Qltb_lt. split.
    + intros [_ Hq]. now exists q.
    + intros (q' & [= <-] & Hq). split; [|assumption].
      apply negb_true_iff. destruct (Qeq_bool q 0) eqn:E; [|reflexivity].
      apply Qeq_bool_eq in E. rewrite E in Hq. now apply Qlt_irrefl in Hq.
Qed.

Lemma percentile_positive (x : list JS.value) (p : Q) :
  x <> [] -> 0 <= p -> p <= 100 -> List.Forall positiveNumber x ->
  positiveNumber (Rater.percentile x p).
Proof.
  intros Hne Hp0 Hp100 Hpos.
  destruct (percentile_segment x p) as (a & b & t & q & Ha & Hb & Ht0 & Ht1 & E & Hq);
    try assumption.
  - revert Hpos. apply List.Forall_impl. intros v (q & -> & _). eauto.
  - rewrite List.Forall_forall in Hpos.
    destruct (Hpos _ Ha) as (a' & [= <-] & Ha'), (Hpos _ Hb) as (b' & [= <-] & Hb').
    exists q. split; [assumption|]. rewrite Hq. nra.
Qed.

Lemma positive_truthy (v : JS.value) : positiveNumber v -> JS.truthy v = true.
Proof.
  intros (q & -> & Hq). simpl. apply negb_true_iff.
  destruct (Qeq_bool q 0) eqn:E; [|reflexivity].
  apply Qeq_bool_eq in E. rewrite E in Hq. now apply Qlt_irrefl in Hq.
Qed.

Lemma sort_not_nil {A : Type} (cmp : A -> A -> JS.value) (l : list A) :
  l <> [] -> JS.sort cmp l <> [].
Proof.
  intros Hne E. apply Hne. apply length_zero_iff_nil.
  rewrite <- (sort_length cmp l), E. reflexivity.
Qed.

(** With a listing that has a price per m², the global median is positive. *)
Lemma globalMedianPPS_positive (listings : list Listing.t) (l : Listing.t) :
  In l listings -> Rater.hasPPS l = true -> positiveNumber (globalMedianPPS listings).
Proof.
  intros Hl Hpps. unfold globalMedianPPS.
  assert (Hin : In l (List.filter Rater.hasPPS listings)) by now apply filter_In.
  set (arr := map Listing.pricePerSqm (List.filter Rater.hasPPS listings)).
  assert (Hne : arr <> []).
  { unfold arr. destruct (List.filter Rater.hasPPS listings); [contradiction|discriminate]. }
  cbv zeta. rewrite sort_length.
  destruct (Nat.eqb_spec (length arr) 0) as [E|_].
  - apply length_zero_iff_nil in E. contradiction.
  - apply percentile_positive; try discriminate; [now apply sort_not_nil|].
    apply Forall_sort. unfold arr. rewrite List.Forall_forall. intros v Hv.
    apply in_map_iff in Hv as (l' & <- & Hl'). apply filter_In in Hl' as [_ Hl'].
    now apply hasPPS_positive.
Qed.

(** What the first loop has gathered for a neighbourhood is not empty and
    holds prices per m² of the listings only. *)
Lemma collectPPS_entries (P : JS.value -> Prop) (withPPS : list Listing.t)
    (k : string) (arr : list JS.value) :
  (forall l, In l withPPS -> P (Listing.pricePerSqm l)) ->
  Rater.collectPPS withPPS !! k = Some arr ->
  arr <> [] /\ List.Forall P arr.
Proof.
  unfold Rater.collectPPS.
  assert (Hgen : forall (ls : list Listing.t) (m : gmap string (list JS.value)),
             (forall l, In l ls -> P (Listing.pricePerSqm l)) ->
             (forall k arr, m !! k = Some arr -> arr <> [] /\ List.Forall P arr) ->
             forall k arr,
               fold_left
                 (fun (neighborhoodStats : gmap string (list JS.value)) listing =>
                    let key := Listing.neighborhood listing in
                    let neighborhoodStats :=
                      match neighborhoodStats !! key with
                      | None => <[key := []]> neighborhoodStats
                      | Some _ => neighborhoodStats
                      end in
                    alter (fun arr => arr ++ [Listing.pricePerSqm listing]) key
                      neighborhoodStats) ls m !! k = Some arr ->
               arr <> [] /\ List.Forall P arr).
  { induction ls as [|l t IH]; intros m HP Hm k' arr'; simpl; [apply Hm|].
    apply IH; [intros; apply HP; now right|].
    intros k2 arr2. destruct (decide (k2 = Listing.neighborhood l)) as [->|Hk].
    - rewrite lookup_alter_eq.
      destruct (m !! Listing.neighborhood l) as [old|] eqn:E.
      + rewrite E. simpl. intros [= <-]. destruct (Hm _ _ E) as [_ Hold]. split.
        * destruct old; discriminate.
        * apply Forall_app. split; [assumption|]. constructor; [|constructor].
          apply HP. now left.
      + rewrite lookup_insert_eq. simpl. intros [= <-]. split; [discriminate|].
        constructor; [|constructor]. apply HP. now left.
    - rewrite lookup_alter_ne by congruence.
      destruct (m !! Listing.neighborhood l); [apply Hm|].
      rewrite lookup_insert_ne by congruence. apply Hm. }
  intros HP. apply Hgen; [assumption|]. intros k' arr'. now rewrite lookup_empty.
Qed.

(** The median of a neighbourhood is positive. *)
Lemma areaStats_positive (listings : list Listing.t) (k : string) (st : NStats) :
  areaStats listings !! k = Some st -> positiveNumber (median st).
Proof.
  unfold areaStats. rewrite lookup_fmap.
  destruct (Rater.collectPPS (List.filter Rater.hasPPS listings) !! k) as [arr|] eqn:E;
    [|discriminate].
  simpl. intros [= <-]. simpl.
  destruct (collectPPS_entries positiveNumber _ _ _
              (fun l Hl => proj1 (hasPPS_positive l) (proj2 (proj1 (filter_In _ _ _) Hl))) E)
    as [Hne Hpos].
  apply percentile_positive; try discriminate; [now apply sort_not_nil|].
  now apply Forall_sort.
Qed.

Lemma leb_mono (x y c : Q) : x <= y -> Qle_bool y c = true -> Qle_bool x c = true.
Proof.
  intros Hxy H. apply Qle_bool_iff. apply Qle_bool_iff in H. lra.
Qed.

(** The ladder never gives more to a larger ratio. *)
Lemma ladder_antitone (x y : Q) :
  x <= y -> (ladder (JS.Num y) <= ladder (JS.Num x))%Z.
Proof.
  intros Hxy. unfold ladder, JS.le; simpl.
  repeat case_match; try lia; exfalso;
    repeat match goal with
           | H1 : Qle_bool x ?c = false, H2 : Qle_bool y ?c = true |- _ =>
               rewrite (leb_mono x y c Hxy H2) in H1; discriminate
           end.
Qed.

Lemma div_positive (q m : Q) : 0 < m -> JS.div (JS.Num q) (JS.Num m) = JS.Num (q / m).
Proof.
  intros Hm. unfold JS.div; simpl.
  destruct (Qeq_bool m 0) eqn:E; [|reflexivity].
  apply Qeq_bool_eq in E. rewrite E in Hm. now apply Qlt_irrefl in Hm.
Qed.

Lemma quotient_mono (x y m : Q) : 0 < m -> x <= y -> x / m <= y / m.
Proof.
  intros Hm Hxy. unfold Qdiv. apply Qmult_le_compat_r; [assumption|].
  apply Qlt_le_weak, Qinv_lt_0_compat, Hm.
Qed.

Lemma finalScore_cheaper (listings : list Listing.t) (l1 l2 : Listing.t) :
  In l1 listings -> In l2 listings ->
  Listing.neighborhood l1 = Listing.neighborhood l2 ->
  Rater.hasPPS l1 = true -> Rater.hasPPS l2 = true ->
  JS.le (Listing.pricePerSqm l1) (Listing.pricePerSqm l2) = true ->
  landBonus l1 = landBonus l2 ->
  (finalScore (globalMedianPPS listings) (globalMedianPrice listings)
     (areaStats listings) l2
   <= finalScore (globalMedianPPS listings) (globalMedianPrice listings)
        (areaStats listings) l1)%Z.
Proof.
  intros Hl1 Hl2 Hnb Hp1 Hp2 Hle Hland.
  destruct (globalMedianPPS_positive listings l1 Hl1 Hp1) as (m & Hm & Hm0).
  unfold finalScore, landScore, priceScore. rewrite <- Hland.
  unfold Rater.hasPPS in Hp1, Hp2. rewrite Hp1, Hp2, Hm.
  rewrite (positive_truthy (JS.Num m)) by (exists m; auto). cbn [andb].
  apply hasPPS_positive in Hp1 as (q1 & E1 & Hq1).
  apply hasPPS_positive in Hp2 as (q2 & E2 & Hq2).
  rewrite E1, E2 in *. unfold JS.le in Hle; simpl in Hle. apply Qle_bool_iff in Hle.
  rewrite !div_positive by assumption.
  pose proof (ladder_antitone _ _ (quotient_mono q1 q2 m Hm0 Hle)) as Hlad.
  pose proof (ladder_range (JS.Num (q1 / m))) as R1.
  pose proof (ladder_range (JS.Num (q2 / m))) as R2.
  assert (Hbonus : areaBonus (areaStats listings) l2 = true ->
                   areaBonus (areaStats listings) l1 = true).
  { unfold areaBonus. rewrite Hnb, E1, E2.
    destruct (areaStats listings !! Listing.neighborhood l2) as [st|] eqn:Es; [|discriminate].
    destruct (areaStats_positive _ _ _ Es) as (mn & Hmn & Hmn0).
    rewrite Hmn, !div_positive by assumption.
    rewrite !andb_true_iff. intros [Ht H]. split; [assumption|].
    unfold JS.le in *; simpl in *.
    eapply leb_mono; [|exact H]. now apply quotient_mono. }
  destruct (areaBonus (areaStats listings) l2) eqn:B2.
  - rewrite (Hbonus eq_refl). destruct (landBonus l1); lia.
  - destruct (areaBonus (areaStats listings) l1), (landBonus l1); lia.
Qed.

(** X5.  Of two rated listings of one result that are in the same
    neighbourhood, both with a positive price per m², and that both get or
    both miss the land bonus, the one with the lower price per m² is never
    rated lower.  Both versions of the rater. *)
Theorem rateListings_cheaper_not_lower (show locale : JS.value -> string)
    (listings : list Listing.t) (r1 r2 : Rated.t) :
  In r1 (Rater.rateListings show listings)
  \/ In r1 (RaterV2.rateListings show locale listings) ->
  In r2 (Rater.rateListings show listings)
  \/ In r2 (RaterV2.rateListings show locale listings) ->
  Listing.neighborhood (Rated.listing r1) = Listing.neighborhood (Rated.listing r2) ->
  Rater.hasPPS (Rated.listing r1) = true ->
  Rater.hasPPS (Rated.listing r2) = true ->
  JS.le (Rated.pricePerSqm r1) (Rated.pricePerSqm r2) = true ->
  landBonus (Rated.listing r1) = landBonus (Rated.listing r2) ->
  (Rated.rating r2 <= Rated.rating r1)%Z.
Proof.
  intros H1 H2 Hnb Hp1 Hp2 Hle Hland.
  destruct (rateListings_rating_cases show locale listings r1 H1)
    as [Hl1 [(-> & _ & Hn)|(-> & _ & Hp)]],
    (rateListings_rating_cases show locale listings r2 H2)
    as [Hl2 [(-> & _ & Hn')|(-> & _ & Hp')]].
  - lia.
  - destruct Hp' as (l & Hl & Hu). now apply Hn in Hu.
  - destruct Hp as (l & Hl & Hu). now apply Hn' in Hu.
  - now apply finalScore_cheaper.
Qed.

Lemma rateListings_cheaper_not_lower_witness :
  let d := neutral (house "0" JS.Null JS.Null EmptyString) in
  let r1 := nth 3 (Rater.rateListings blank fivePriced) d in
  let r2 := nth 4 (Rater.rateListings blank fivePriced) d in
  (Rated.rating r2 <= Rated.rating r1)%Z.
Proof.
  intros d r1 r2.
  apply (rateListings_cheaper_not_lower blank blank fivePriced r1 r2).
  - left. vm_compute. do 3 right. left. reflexivity.
  - left. vm_compute. do 4 right. left. reflexivity.
  - reflexivity.
  - reflexivity.
  - reflexivity.
  - reflexivity.
  - reflexivity.
Defined.

(** ** [deduplicate]: composition *)

Section DeduplicateMore.
Import Scraper.

(** The ids [keepUnseen] has kept. *)
Local Abbreviation keptIds seen listings :=
  (list_to_set (map Listing.id (keepUnseen seen listings)) : gset string).

Lemma keepUnseen_app (seen : gset string) (a b : list Listing.t) :
  keepUnseen seen (a ++ b)
  = keepUnseen seen a ++ keepUnseen (keptIds seen a ∪ seen) b.
Proof.
  revert seen. induction a as [|x t IH]; intros seen; simpl.
  - now rewrite union_empty_l_L.
  - destruct (_ || _); [apply IH|].
    simpl. rewrite IH. do 2 f_equal.
    rewrite (union_comm_L {[Listing.id x]} (list_to_set _)).
    now rewrite union_assoc_L.
Qed.

Lemma keepUnseen_filter (s1 s2 : gset string) (b : list Listing.t) :
  keepUnseen (s1 ∪ s2) b
  = List.filter (fun l => negb (bool_decide (Listing.id l ∈ s1))) (keepUnseen s2 b).
Proof.
  revert s2. induction b as [|x t IH]; intros s2; simpl; [reflexivity|].
  destruct (String.eqb_spec (Listing.id x) EmptyString) as [Hx|Hx]; simpl; [apply IH|].
  destruct (decide (Listing.id x ∈ s2)) as [H2|H2].
  - rewrite (bool_decide_eq_true_2 (_ ∈ s2)) by assumption.
    rewrite bool_decide_eq_true_2 by (apply elem_of_union; now right).
    apply IH.
  - rewrite (bool_decide_eq_false_2 (_ ∈ s2)) by assumption. simpl.
    destruct (decide (Listing.id x ∈ s1)) as [H1|H1].
    + rewrite (bool_decide_eq_true_2 (_ ∈ s1)) by assumption.
      rewrite bool_decide_eq_true_2 by (apply elem_of_union; now left).
      simpl. rewrite <- IH. f_equal.
      apply set_eq. intros k. rewrite !elem_of_union, elem_of_singleton.
      split; [tauto|]. intros [?|[->|?]]; tauto.
    + rewrite (bool_decide_eq_false_2 (_ ∈ s1)) by assumption.
      rewrite bool_decide_eq_false_2
        by (intros H; apply elem_of_union in H as [?|?]; contradiction).
      simpl. f_equal. rewrite <- IH. f_equal.
      apply set_eq. intros k. rewrite !elem_of_union. tauto.
Qed.

Lemma keptIds_spec (a : list Listing.t) (k : string) :
  k ∈ keptIds ∅ a <-> k <> EmptyString /\ In k (map Listing.id a).
Proof.
  rewrite elem_of_list_to_set, list_elem_of_In, !in_map_iff. split.
  - intros (l & <- & Hl). apply keepUnseen_In in Hl as (Hne & _ & Hf).
    split; [assumption|]. exists l. split; [reflexivity|].
    now apply find_some in Hf.
  - intros (Hne & l & <- & Hl).
    destruct (List.find (fun x => String.eqb (Listing.id x) (Listing.id l)) a) as [f|] eqn:Hf.
    + pose proof (find_some _ _ Hf) as [_ Hid]. apply String.eqb_eq in Hid.
      exists f. split; [assumption|]. apply keepUnseen_In.
      rewrite Hid. repeat split; [assumption|apply not_elem_of_empty|assumption].
    + exfalso. pose proof (find_none _ _ Hf l Hl) as H. simpl in H.
      now rewrite String.eqb_refl in H.
Qed.

(** X6.  Deduplicating a concatenation is deduplicating the first part and
    appending what deduplicating the second part leaves once the listings
    whose id already occurs in the first part are taken out. *)
Theorem deduplicate_app (a b : list Listing.t) :
  deduplicate (a ++ b)
  = deduplicate a
    ++ List.filter (fun l => negb (bool_decide (Listing.id l ∈ map Listing.id a)))
         (deduplicate b).
Proof.
  unfold deduplicate. rewrite keepUnseen_app, keepUnseen_filter. f_equal.
  apply filter_ext_in. intros l Hl. f_equal.
  apply keepUnseen_In in Hl as (Hne & _).
  apply bool_decide_ext. rewrite keptIds_spec, list_elem_of_In. tauto.
Qed.

(** X7.  Deduplicating twice is deduplicating once. *)
Theorem deduplicate_twice (listings : list Listing.t) :
  deduplicate (deduplicate listings) = deduplicate listings.
Proof. unfold deduplicate. now apply keepUnseen_again. Qed.

Lemma keepUnseen_all (seen : gset string) (listings : list Listing.t) :
  NoDup (map Listing.id listings) ->
  (forall l, In l listings -> Listing.id l <> EmptyString /\ Listing.id l ∉ seen) ->
  keepUnseen seen listings = listings.
Proof.
  revert seen. induction listings as [|x t IH]; intros seen Hnd Hok; simpl; [reflexivity|].
  destruct (Hok x (or_introl eq_refl)) as [Hne Hs].
  destruct (String.eqb_spec (Listing.id x) EmptyString); [contradiction|].
  rewrite bool_decide_eq_false_2 by assumption. simpl. f_equal.
  apply NoDup_cons in Hnd as [Hx Hnd]. apply IH; [assumption|].
  intros l Hl. destruct (Hok l (or_intror Hl)) as [Hne' Hs']. split; [assumption|].
  intros H. apply elem_of_union in H as [H|H]; [|contradiction].
  apply elem_of_singleton in H. apply Hx. apply list_elem_of_In, in_map_iff.
  exists l. split; [congruence|assumption].
Qed.

(** X8.  [deduplicate] returns its input unchanged exactly when no listing
    of it has an empty id and no id occurs twice. *)
Theorem deduplicate_unchanged_iff (listings : list Listing.t) :
  deduplicate listings = listings
  <-> NoDup (map Listing.id listings)
      /\ List.Forall (fun l => Listing.id l <> EmptyString) listings.
Proof.
  split.
  - intros E. split.
    + rewrite <- E. apply keepUnseen_NoDup.
    + rewrite List.Forall_forall. intros l Hl. rewrite <- E in Hl.
      now apply keepUnseen_In in Hl.
  - intros [Hnd Hne]. apply keepUnseen_all; [assumption|].
    rewrite List.Forall_forall in Hne. intros l Hl.
    split; [now apply Hne|apply not_elem_of_empty].
Qed.

End DeduplicateMore.

(** ** The crawl *)

Section CrawlFacts.
Import Crawl.
Variable fetch : string -> response.
Variable parseListings : string -> Neighborhood -> list Listing.t.
Variables pageLinkHrefs pagerTexts : string -> list string.

Local Abbreviation scrapeNeighborhood :=
  (Crawl.scrapeNeighborhood fetch parseListings pageLinkHrefs pagerTexts).
Local Abbreviation scrapeFrom :=
  (Crawl.scrapeFrom fetch parseListings pageLinkHrefs pagerTexts).
Local Abbreviation scrapeAll :=
  (Crawl.scrapeAll fetch parseListings pageLinkHrefs pagerTexts).

Lemma addPage_fold (url : string) (n : Neighborhood) (pages : list Z)
    (allListings : list Listing.t) :
  fold_left (addPage fetch parseListings url n) pages allListings
  = allListings ++ flat_map (pageListings fetch parseListings url n) pages.
Proof.
  revert allListings. induction pages as [|p t IH]; intros acc; simpl.
  - now rewrite app_nil_r.
  - rewrite IH. unfold addPage, pageListings.
    destruct (fetchPage fetch _) as [html|]; [destruct (nonEmpty html)|];
      now rewrite <- ?app_assoc.
Qed.

Lemma seq_from (a m : nat) : seq a m = map (fun k => (a + k)%nat) (seq 0 m).
Proof.
  revert a. induction m as [|m IH]; intros a; [reflexivity|].
  cbn [seq map]. rewrite Nat.add_0_r. f_equal.
  rewrite (IH (S a)), (IH 1%nat), map_map. apply map_ext. intros k. lia.
Qed.

(** The pages of the loop of [scrapeNeighborhood]: 2, 3, ... up to the
    total, each once. *)
Lemma pagesAfterFirst_seq (t : Z) :
  pagesAfterFirst (Some t) = map Z.of_nat (seq 2 (Z.to_nat t - 1)).
Proof.
  unfold pagesAfterFirst.
  replace (Z.to_nat (t - 1)) with (Z.to_nat t - 1)%nat by lia.
  rewrite (seq_from 2), map_map. apply map_ext. intros k. lia.
Qed.

(** X9.  [scrapeNeighborhood] returns nothing when the first page cannot be
    fetched or is empty.  Otherwise, with the total [t] that
    [getTotalPages] reads in the first page (an integer below 2^53), it
    returns the listings of the first page followed by those of the pages
    2, 3, ... [t], each page once and in that order; a page that cannot be
    fetched or is empty gives no listing and does not stop the pages after
    it. *)
Theorem scrapeNeighborhood_pages (n : Neighborhood) :
  (fetchPage fetch (areaUrl n) = None \/ fetchPage fetch (areaUrl n) = Some EmptyString ->
   scrapeNeighborhood n = [])
  /\ (forall html t,
      fetchPage fetch (areaUrl n) = Some html -> html <> EmptyString ->
      Scraper.getTotalPages pageLinkHrefs pagerTexts html = Some t -> safeInteger t ->
      scrapeNeighborhood n
      = parseListings html n
        ++ flat_map (pageListings fetch parseListings (areaUrl n) n)
             (map Z.of_nat (seq 2 (Z.to_nat t - 1)))).
Proof.
  unfold Crawl.scrapeNeighborhood.
  change (BASE_URL ++ "/nekretnine/prodaja-kuca/" ++ slug n)%string with (areaUrl n).
  split.
  - intros [->| ->]; reflexivity.
  - intros html t -> Hne -> _. unfold nonEmpty.
    destruct (String.eqb_spec html EmptyString); [contradiction|]. cbn [negb].
    rewrite addPage_fold. now rewrite pagesAfterFirst_seq.
Qed.

(** What [scrapeFrom] has called [onProgress] with, and what it returns. *)
Lemma scrapeFrom_result (i : nat) (rest : list Neighborhood) (acc : list Listing.t) :
  snd (scrapeFrom i rest acc) = acc ++ flat_map scrapeNeighborhood rest.
Proof.
  revert i acc. induction rest as [|n t IH]; intros i acc; simpl.
  - now rewrite app_nil_r.
  - specialize (IH (S i) (acc ++ scrapeNeighborhood n)).
    destruct (Crawl.scrapeFrom _ _ _ _ (S i) t _) as [calls final]. simpl in *.
    now rewrite IH, <- app_assoc.
Qed.

Lemma scrapeFrom_calls (i : nat) (rest : list Neighborhood) (acc : list Listing.t)
    (k : nat) (area : Neighborhood) :
  rest !! k = Some area ->
  fst (scrapeFrom i rest acc) !! k
  = Some {| current := i + k + 1;
            total := length NEIGHBORHOODS;
            currentName := name area;
            listings :=
              Scraper.deduplicate
                (acc ++ flat_map scrapeNeighborhood (take (S k) rest)) |}.
Proof.
  revert i acc k. induction rest as [|n t IH]; intros i acc k Hk; [discriminate|].
  simpl. specialize (IH (S i) (acc ++ scrapeNeighborhood n)).
  destruct (Crawl.scrapeFrom _ _ _ _ (S i) t _) as [calls final]. simpl in *.
  destruct k as [|k]; simpl in *.
  - injection Hk as <-. rewrite app_nil_r. do 2 f_equal. lia.
  - rewrite (IH k Hk). do 2 f_equal; [lia|]. now rewrite <- app_assoc.
Qed.

Lemma scrapeFrom_calls_length (i : nat) (rest : list Neighborhood) (acc : list Listing.t) :
  length (fst (scrapeFrom i rest acc)) = length rest.
Proof.
  revert i acc. induction rest as [|n t IH]; intros i acc; simpl; [reflexivity|].
  specialize (IH (S i) (acc ++ scrapeNeighborhood n)).
  destruct (Crawl.scrapeFrom _ _ _ _ (S i) t _) as [calls final]. simpl in *.
  now rewrite IH.
Qed.

Lemma scrapeAll_calls : fst scrapeAll = fst (scrapeFrom 0 NEIGHBORHOODS []).
Proof.
  unfold Crawl.scrapeAll. now destruct (Crawl.scrapeFrom _ _ _ _ 0 NEIGHBORHOODS []).
Qed.

Lemma scrapeAll_final :
  snd scrapeAll = Scraper.deduplicate (flat_map scrapeNeighborhood NEIGHBORHOODS).
Proof.
  unfold Crawl.scrapeAll. pose proof (scrapeFrom_result 0 NEIGHBORHOODS []) as H.
  destruct (Crawl.scrapeFrom _ _ _ _ 0 NEIGHBORHOODS []) as [calls final].
  simpl in *. now rewrite H.
Qed.

(** X10.  [scrapeAll] returns the listings of the eight neighbourhoods, in
    the order of [NEIGHBORHOODS], deduplicated.  It calls [onProgress] once
    per neighbourhood: the call for the neighbourhood at index [k] says
    [k + 1] of 8, names it, and carries the deduplicated listings of the
    neighbourhoods up to it. *)
Theorem scrapeAll_result :
  snd scrapeAll = Scraper.deduplicate (flat_map scrapeNeighborhood NEIGHBORHOODS)
  /\ length (fst scrapeAll) = 8%nat
  /\ (forall k area, NEIGHBORHOODS !! k = Some area ->
      fst scrapeAll !! k
      = Some {| current := k + 1;
                total := 8;
                currentName := name area;
                listings :=
                  Scraper.deduplicate
                    (flat_map scrapeNeighborhood (take (S k) NEIGHBORHOODS)) |}).
Proof.
  split; [apply scrapeAll_final|]. rewrite scrapeAll_calls. split.
  - now rewrite scrapeFrom_calls_length.
  - intros k area Hk. now rewrite (scrapeFrom_calls 0 _ [] k area Hk).
Qed.

Lemma deduplicate_prefix (a b : list Listing.t) :
  Scraper.deduplicate a `prefix_of` Scraper.deduplicate (a ++ b).
Proof.
  unfold Scraper.deduplicate. rewrite keepUnseen_app. now eexists.
Qed.

Lemma flat_map_take_S {A B : Type} (f : A -> list B) (l : list A) (k : nat) (x : A) :
  l !! k = Some x -> flat_map f (take (S k) l) = flat_map f (take k l) ++ f x.
Proof.
  intros Hk. rewrite (take_S_r l k x Hk), flat_map_app. simpl. now rewrite app_nil_r.
Qed.

Lemma scrapeFrom_grows (i : nat) (rest : list Neighborhood) (acc : list Listing.t)
    (k : nat) (p q : Progress) :
  fst (scrapeFrom i rest acc) !! k = Some p ->
  fst (scrapeFrom i rest acc) !! (S k) = Some q ->
  listings p `prefix_of` listings q.
Proof.
  intros Hp Hq.
  assert (Hk : (S k < length rest)%nat).
  { apply lookup_lt_Some in Hq. now rewrite scrapeFrom_calls_length in Hq. }
  destruct (lookup_lt_is_Some_2 rest k ltac:(lia)) as [a Ha].
  destruct (lookup_lt_is_Some_2 rest (S k) Hk) as [b Hb].
  rewrite (scrapeFrom_calls i _ acc k a Ha) in Hp.
  rewrite (scrapeFrom_calls i _ acc (S k) b Hb) in Hq.
  injection Hp as <-. injection Hq as <-. cbn [listings].
  rewrite (flat_map_take_S _ _ (S k) b Hb), app_assoc. apply deduplicate_prefix.
Qed.

Lemma scrapeFrom_last (i : nat) (rest : list Neighborhood) (acc : list Listing.t)
    (p : Progress) :
  fst (scrapeFrom i rest acc) !! (length rest - 1)%nat = Some p ->
  listings p = Scraper.deduplicate (snd (scrapeFrom i rest acc)).
Proof.
  intros Hp.
  assert (Hk : (length rest - 1 < length rest)%nat).
  { apply lookup_lt_Some in Hp. now rewrite scrapeFrom_calls_length in Hp. }
  destruct (lookup_lt_is_Some_2 rest _ Hk) as [a Ha].
  rewrite (scrapeFrom_calls i _ acc _ a Ha) in Hp. injection Hp as <-. cbn [listings].
  rewrite scrapeFrom_result. replace (S (length rest - 1)) with (length rest) by lia.
  now rewrite firstn_all.
Qed.

(** X11.  The partial results only grow: the listings of a call of
    [onProgress] are the beginning of the listings of the next call, and
    the listings of the last call are the listings [scrapeAll] returns.
    What [scrapeAll] returns has no empty id and no id twice. *)
Theorem scrapeAll_progress_grows :
  (forall k p q, fst scrapeAll !! k = Some p -> fst scrapeAll !! (S k) = Some q ->
                 listings p `prefix_of` listings q)
  /\ (forall p, fst scrapeAll !! 7%nat = Some p -> listings p = snd scrapeAll)
  /\ NoDup (map Listing.id (snd scrapeAll))
  /\ List.Forall (fun l => Listing.id l <> EmptyString) (snd scrapeAll).
Proof.
  split; [|split; [|split]].
  - rewrite scrapeAll_calls. apply scrapeFrom_grows.
  - intros p Hp. rewrite scrapeAll_calls in Hp.
    apply (scrapeFrom_last 0 NEIGHBORHOODS []) in Hp. rewrite Hp.
    now rewrite scrapeAll_final, scrapeFrom_result.
  - rewrite scrapeAll_final. apply keepUnseen_NoDup.
  - rewrite scrapeAll_final, List.Forall_forall. intros l Hl.
    now apply keepUnseen_In in Hl.
Qed.

End CrawlFacts.

Lemma scrapeNeighborhood_pages_witness :
  Crawl.scrapeNeighborhood threePageSite listingOfPage pagerLinks noLinks grocka
  = [house pagerOnly JS.Null JS.Null "Grocka"; house "<p>3</p>" JS.Null JS.Null "Grocka"].
Proof.
  refine (proj2 (scrapeNeighborhood_pages threePageSite listingOfPage pagerLinks noLinks
                   grocka) pagerOnly 3%Z eq_refl ltac:(discriminate) eq_refl _).
  unfold safeInteger. vm_compute. reflexivity.
Defined.

Lemma scrapeAll_result_witness :
  fst (Crawl.scrapeAll oneAreaSite oneListingPage noLinks noLinks) !! 4%nat
  = Some {| Crawl.current := 4 + 1;
            Crawl.total := 8;
            Crawl.currentName := "Grocka";
            Crawl.listings :=
              Scraper.deduplicate
                (flat_map (Crawl.scrapeNeighborhood oneAreaSite oneListingPage noLinks noLinks)
                   (take 5 Crawl.NEIGHBORHOODS)) |}.
Proof.
  exact (proj2 (proj2 (scrapeAll_result oneAreaSite oneListingPage noLinks noLinks))
           4%nat grocka eq_refl).
Defined.

Lemma scrapeAll_progress_grows_witness :
  let crawl := Crawl.scrapeAll oneAreaSite oneListingPage noLinks noLinks in
  let last :=
    Crawl.mkProgress 8 8 "Zvezdara" [house "1" (JS.Num 90000) (JS.Num 900) "Grocka"] in
  fst crawl !! 7%nat = Some last /\ Crawl.listings last = snd crawl.
Proof.
  intros crawl last.
  assert (H : fst crawl !! 7%nat = Some last) by (vm_compute; reflexivity).
  split; [exact H|].
  exact (proj1 (proj2 (scrapeAll_progress_grows oneAreaSite oneListingPage noLinks noLinks))
           last H).
Defined.

(** ** The server: new listings and the run *)

Section ServerFacts.
Import Server.
Variable show : JS.value -> string.

Lemma setAdd_spec (x : string) (set : list string) (y : string) :
  y ∈ setAdd x set <-> y = x \/ y ∈ set.
Proof.
  unfold setAdd. case_bool_decide as H.
  - split; [now right|]. intros [->|?]; assumption.
  - rewrite elem_of_app, list_elem_of_singleton. tauto.
Qed.

Lemma setAdd_NoDup (x : string) (set : list string) : NoDup set -> NoDup (setAdd x set).
Proof.
  intros Hnd. unfold setAdd. case_bool_decide as H; [assumption|].
  apply NoDup_app. split; [assumption|]. split.
  - intros y Hy Hx. apply list_elem_of_singleton in Hx as ->. contradiction.
  - apply NoDup_singleton.
Qed.

Lemma nonEmpty_true (s : string) : Crawl.nonEmpty s = true <-> s <> EmptyString.
Proof.
  unfold Crawl.nonEmpty. rewrite negb_true_iff.
  destruct (String.eqb_spec s EmptyString); split; congruence.
Qed.

(** The loop that detects new listings, from any pair of sets on. *)
Lemma noteListing_fold (rated : list Rated.t) (newIds : list string) (knownIds : gset string) :
  let sets := fold_left noteListing rated (newIds, knownIds) in
  (forall id, id ∈ fst sets <-> id ∈ newIds \/ (brings rated id /\ id ∉ knownIds))
  /\ (forall id, id ∈ snd sets <-> id ∈ knownIds \/ brings rated id)
  /\ (NoDup newIds -> NoDup (fst sets)).
Proof.
  revert newIds knownIds. induction rated as [|r t IH]; intros newIds knownIds; simpl.
  - unfold brings. repeat split; try tauto.
    + intros [?|[(_ & r & [] & _) _]]. assumption.
    + intros [?|(_ & r & [] & _)]. assumption.
  - set (id0 := Listing.id (Rated.listing r)).
    assert (Hb : forall id, brings (r :: t) id
                            <-> (id0 <> EmptyString /\ id = id0) \/ brings t id).
    { intros id. unfold brings. split.
      - intros (Hne & r' & [<-|Hr'] & E); [left|right]; eauto.
        split; [|now symmetry]. fold id0 in E. congruence.
      - intros [[Hne ->]|(Hne & r' & Hr' & E)]; split; eauto.
        + exists r. split; [now left|reflexivity].
        + exists r'. split; [now right|assumption]. }
    destruct (Crawl.nonEmpty id0 && negb (bool_decide (id0 ∈ knownIds))) eqn:C.
    + apply andb_true_iff in C as [Hne Hk]. apply nonEmpty_true in Hne.
      apply negb_true_iff, bool_decide_eq_false in Hk.
      destruct (IH (setAdd id0 newIds) ({[id0]} ∪ knownIds)) as (I1 & I2 & I3).
      split; [|split].
      * intros id. rewrite I1, setAdd_spec, Hb, elem_of_union, elem_of_singleton.
        destruct (decide (id = id0)) as [->|]; tauto.
      * intros id. rewrite I2, Hb, elem_of_union, elem_of_singleton. tauto.
      * intros Hnd. apply I3. now apply setAdd_NoDup.
    + destruct (IH newIds knownIds) as (I1 & I2 & I3).
      assert (Hskip : id0 = EmptyString \/ id0 ∈ knownIds).
      { apply andb_false_iff in C as [C|C].
        - left. destruct (String.eqb_spec id0 EmptyString) as [|N]; [assumption|].
          apply nonEmpty_true in N. congruence.
        - right. apply negb_false_iff, bool_decide_eq_true in C. assumption. }
      split; [|split].
      * intros id. rewrite I1, Hb.
        destruct (decide (id = id0)) as [->|]; tauto.
      * intros id. rewrite I2, Hb.
        destruct (decide (id = id0)) as [->|]; tauto.
      * assumption.
Qed.

Lemma last_Some_None {A : Type} (l : list A) :
  List.last (map Some l) None = None -> l = [].
Proof.
  induction l as [|a [|b t] IH]; [reflexivity|discriminate|].
  intros H. apply IH in H. discriminate.
Qed.

Lemma onProgress_fold (calls : list Crawl.Progress) (st : State) :
  let st' := fold_left (onProgress show) calls st in
  lastScrapeTime st' = lastScrapeTime st /\ scraping st' = scraping st
  /\ knownIds st' = knownIds st /\ newIds st' = newIds st
  /\ scrapeCount st' = scrapeCount st
  /\ listings st'
     = match List.last (map Some calls) None with
       | Some p => Rater.rateListings show (Crawl.listings p)
       | None => listings st
       end.
Proof.
  revert st. induction calls as [|p t IH]; intros st; [simpl; tauto|].
  cbn [fold_left]. destruct (IH (onProgress show st p)) as (H1 & H2 & H3 & H4 & H5 & H6).
  cbv zeta. rewrite H1, H2, H3, H4, H5, H6. repeat split.
  destruct t as [|p' t']; [reflexivity|].
  change (List.last (map Some (p :: p' :: t')) None)
    with (List.last (map Some (p' :: t')) None).
  destruct (List.last (map Some (p' :: t')) None) eqn:E; [reflexivity|].
  now apply last_Some_None in E.
Qed.

(** X12.  A run of [runScrape] that starts while another is going on
    changes nothing.  A run that starts otherwise always ends with
    [scraping] off and the progress reset.  When the crawl succeeds the
    listings are the rated result of the crawl, the count of runs goes up by
    one and the time is recorded; when it fails the count, the time and the
    two sets of ids are as before, and the listings are those rated at the
    last call of [onProgress], if there was one. *)
Theorem runScrape_outcome (st : State) (calls : list Crawl.Progress)
    (raw : option (list Listing.t)) (now : string) :
  (scraping st = true -> runScrape show st calls raw now = st)
  /\ (scraping st = false ->
      let st' := runScrape show st calls raw now in
      scraping st' = false
      /\ scrapeProgress st' = mkScrapeProgress 0 8 EmptyString
      /\ match raw with
         | Some raw =>
             listings st' = Rater.rateListings show raw
             /\ scrapeCount st' = S (scrapeCount st)
             /\ lastScrapeTime st' = Some now
         | None =>
             scrapeCount st' = scrapeCount st
             /\ lastScrapeTime st' = lastScrapeTime st
             /\ knownIds st' = knownIds st
             /\ newIds st' = newIds st
             /\ listings st'
                = match List.last (map Some calls) None with
                  | Some p => Rater.rateListings show (Crawl.listings p)
                  | None => listings st
                  end
         end).
Proof.
  unfold runScrape. split; [intros ->; reflexivity|]. intros ->.
  destruct (onProgress_fold calls (start st)) as (H1 & H2 & H3 & H4 & H5 & H6).
  cbv zeta in *. destruct raw as [raw|].
  - unfold complete.
    destruct (fold_left noteListing _ _) as [nw kn]. cbn.
    repeat split. rewrite H5. cbn. lia.
  - cbn. rewrite H1, H3, H4, H5, H6. repeat split.
Qed.

Lemma runScrape_sets (st : State) (calls : list Crawl.Progress)
    (raw : list Listing.t) (now : string) :
  scraping st = false ->
  let st' := runScrape show st calls (Some raw) now in
  let sets := fold_left noteListing (Rater.rateListings show raw) ([], knownIds st) in
  newIds st' = fst sets /\ knownIds st' = snd sets /\ scraping st' = false.
Proof.
  intros Hs. unfold runScrape. rewrite Hs.
  destruct (onProgress_fold calls (start st)) as (H1 & H2 & H3 & H4 & H5 & H6).
  cbv zeta in *. unfold complete. rewrite H3. cbn [knownIds start].
  destruct (fold_left noteListing _ _) as [nw kn]. cbn. repeat split.
Qed.

Lemma brings_rated (raw : list Listing.t) (id : string) :
  brings (Rater.rateListings show raw) id
  <-> id <> EmptyString /\ exists l, In l raw /\ Listing.id l = id.
Proof.
  destruct (rateListings_perm show show raw) as [Hperm _].
  unfold brings. split; intros (Hne & x & Hx & E); (split; [assumption|]).
  - exists (Rated.listing x). split; [|assumption].
    apply (Permutation_in _ Hperm). now apply in_map.
  - apply (Permutation_in _ (Permutation_sym Hperm)) in Hx.
    apply in_map_iff in Hx as (r & <- & Hr). eauto.
Qed.

(** X13.  After a run whose crawl succeeded, [newIds] lists, each once,
    the ids of the crawled listings that are not empty and were not known
    before the run, and [knownIds] holds what it held plus every id of a
    crawled listing that is not empty. *)
Theorem runScrape_new_ids (st : State) (calls : list Crawl.Progress)
    (raw : list Listing.t) (now : string) :
  scraping st = false ->
  let st' := runScrape show st calls (Some raw) now in
  (forall id, id ∈ newIds st'
              <-> id <> EmptyString /\ (id ∉ knownIds st)
                  /\ exists l, In l raw /\ Listing.id l = id)
  /\ NoDup (newIds st')
  /\ (forall id, id ∈ knownIds st'
                 <-> id ∈ knownIds st
                     \/ (id <> EmptyString /\ exists l, In l raw /\ Listing.id l = id)).
Proof.
  intros Hs. cbv zeta.
  destruct (runScrape_sets st calls raw now Hs) as (-> & -> & _).
  destruct (noteListing_fold (Rater.rateListings show raw) [] (knownIds st))
    as (I1 & I2 & I3).
  cbv zeta in *. split; [|split].
  - intros id. rewrite I1, brings_rated. rewrite elem_of_nil. tauto.
  - apply I3. constructor.
  - intros id. now rewrite I2, brings_rated.
Qed.

(** X14.  A run that crawls only listings whose ids the run before it
    crawled finds nothing new and leaves [knownIds] as it was. *)
Theorem runScrape_again_nothing_new (st : State) (calls1 calls2 : list Crawl.Progress)
    (raw1 raw2 : list Listing.t) (now1 now2 : string) :
  scraping st = false ->
  (forall l, In l raw2 -> exists l', In l' raw1 /\ Listing.id l' = Listing.id l) ->
  let st1 := runScrape show st calls1 (Some raw1) now1 in
  let st2 := runScrape show st1 calls2 (Some raw2) now2 in
  newIds st2 = [] /\ knownIds st2 = knownIds st1.
Proof.
  intros Hs Hsub. cbv zeta.
  destruct (runScrape_sets st calls1 raw1 now1 Hs) as (_ & K1 & S1).
  destruct (runScrape_sets _ calls2 raw2 now2 S1) as (N2 & K2 & _).
  destruct (noteListing_fold (Rater.rateListings show raw1) [] (knownIds st))
    as (_ & J2 & _).
  destruct (noteListing_fold (Rater.rateListings show raw2) []
              (knownIds (runScrape show st calls1 (Some raw1) now1)))
    as (I1 & I2 & _).
  cbv zeta in *.
  assert (Hknown : forall id, brings (Rater.rateListings show raw2) id ->
                              id ∈ knownIds (runScrape show st calls1 (Some raw1) now1)).
  { intros id Hb. rewrite K1. apply J2. right.
    apply brings_rated in Hb as (Hne & l & Hl & E). apply brings_rated.
    split; [assumption|]. destruct (Hsub l Hl) as (l' & Hl' & E'). exists l'.
    split; [assumption|congruence]. }
  split.
  - rewrite N2. apply elem_of_nil_inv. intros id Hid. apply I1 in Hid as [Hid|[Hb Hn]].
    + now apply elem_of_nil in Hid.
    + apply Hn, Hknown, Hb.
  - rewrite K2. apply set_eq. intros id. rewrite I2. split; [|now left].
    intros [?|Hb]; [assumption|now apply Hknown].
Qed.

End ServerFacts.

Lemma runScrape_outcome_witness :
  let st' := Server.runScrape blank Server.initial [] (Some unpricedPair) "12:00" in
  Server.scraping st' = false
  /\ Server.scrapeProgress st' = Server.mkScrapeProgress 0 8 EmptyString
  /\ Server.listings st' = Rater.rateListings blank unpricedPair
  /\ Server.scrapeCount st' = 1%nat
  /\ Server.lastScrapeTime st' = Some "12:00"%string.
Proof.
  exact (proj2 (runScrape_outcome blank Server.initial [] (Some unpricedPair) "12:00")
           eq_refl).
Defined.

Lemma runScrape_new_ids_witness :
  let st' := Server.runScrape blank Server.initial [] (Some unpricedPair) "12:00" in
  (forall id, id ∈ Server.newIds st'
              <-> id <> EmptyString /\ (id ∉ Server.knownIds Server.initial)
                  /\ exists l, In l unpricedPair /\ Listing.id l = id)
  /\ NoDup (Server.newIds st')
  /\ (forall id, id ∈ Server.knownIds st'
                 <-> id ∈ Server.knownIds Server.initial
                     \/ (id <> EmptyString
                         /\ exists l, In l unpricedPair /\ Listing.id l = id)).
Proof.
  exact (runScrape_new_ids blank Server.initial [] unpricedPair "12:00" eq_refl).
Defined.

Lemma runScrape_again_nothing_new_witness :
  let st1 := Server.runScrape blank Server.initial [] (Some unpricedPair) "12:00" in
  let st2 :=
    Server.runScrape blank st1 [] (Some [house "2" JS.Null (JS.Num 100) "Grocka"]) "13:00" in
  Server.newIds st2 = [] /\ Server.knownIds st2 = Server.knownIds st1.
Proof.
  refine (runScrape_again_nothing_new blank Server.initial [] [] unpricedPair
            [house "2" JS.Null (JS.Num 100) "Grocka"] "12:00" "13:00" eq_refl _).
  intros l [<-|[]]. exists (house "2" JS.Null (JS.Num 100) "Grocka").
  split; [right; left; reflexivity|reflexivity].
Defined.

(** ** The server: statistics *)

Section StatsFacts.
Import Server.






Lemma filter_length_perm {A : Type} (f : A -> bool) (l l' : list A) :
  Permutation l l' -> length (List.filter f l) = length (List.filter f l').
Proof.
  induction 1; simpl; try congruence.
  - destruct (f x); simpl; congruence.
  - destruct (f x), (f y); reflexivity.
Qed.

Lemma filter_map_length {A B : Type} (g : A -> B) (f : B -> bool) (l : list A) :
  length (List.filter (fun a => f (g a)) l) = length (List.filter f (map g l)).
Proof.
  induction l as [|a t IH]; simpl; [reflexivity|].
  destruct (f (g a)); simpl; congruence.
Qed.

Lemma rateListings_wellRated (show : JS.value -> string) (listings : list Listing.t) :
  List.Forall wellRated (Rater.rateListings show listings).
Proof.
  unfold Rater.rateListings, Rater.rateListingsWith.
  destruct (length listings =? 0)%nat; [constructor|].
  destruct (length (List.filter Rater.hasPrice listings) =? 0)%nat.
  - apply Forall_map_all, wellRated_unrated.
  - apply Forall_sort, Forall_map_all. intros l.
    eapply wellRated_final; [apply rate_rating|apply rate_label].
Qed.

Lemma gt_zero_hasPrice (l : Listing.t) :
  JS.gt (Listing.price l) (JS.Num 0) = Rater.hasPrice l.
Proof.
  unfold Rater.hasPrice. destruct (Listing.price l) as [| | |q]; try reflexivity.
  unfold JS.gt, JS.lt, JS.Qltb; simpl.
  destruct (Qle_bool q 0) eqn:E; simpl; [now rewrite andb_false_r|].
  rewrite andb_true_r. symmetry. apply negb_true_iff.
  destruct (Qeq_bool q 0) eqn:E0; [|reflexivity].
  apply Qeq_bool_eq in E0. rewrite E0 in E. discriminate.
Qed.

(** X16.  For the statistics of a rated result: [total] is the number of
    listings rated, [mustBuy] the number of them rated 9 or 10, and
    [withPrice] the number of listings that had a usable price. *)
Theorem getStats_of_rated (show : JS.value -> string) (listings : list Listing.t) :
  let stats := getStats (Rater.rateListings show listings) in
  Stats.total stats = length listings
  /\ Stats.mustBuy stats
     = length (List.filter (fun r => (9 <=? Rated.rating r)%Z)
                 (Rater.rateListings show listings))
  /\ Stats.withPrice stats = length (List.filter Rater.hasPrice listings).
Proof.
  destruct (rateListings_perm show show listings) as [Hperm _].
  cbv zeta. unfold getStats. cbn [Stats.total Stats.mustBuy Stats.withPrice].
  split; [|split].
  - rewrite <- (Permutation_length Hperm). now rewrite length_map.
  - f_equal. apply filter_ext_in. intros r Hr.
    pose proof (rateListings_wellRated show listings) as Hw.
    rewrite List.Forall_forall in Hw. destruct (Hw r Hr) as (_ & Hl & Hlow).
    destruct (Z.leb_spec 9 (Rated.rating r)) as [H9|H9].
    + apply String.eqb_eq. now apply Hl.
    + rewrite (Hlow H9). reflexivity.
  - rewrite <- (filter_length_perm _ _ _ Hperm), <- filter_map_length.
    f_equal. apply filter_ext. intros r. apply gt_zero_hasPrice.
Qed.

End StatsFacts.


(** ** The field parsers *)

Section ParserFacts.
Import JS Scraper.

Lemma allOf_takeWhile (p : ascii -> bool) (s : string) : allOf p (takeWhile p s) = true.
Proof.
  induction s as [|c r IH]; simpl; [reflexivity|].
  destruct (p c) eqn:E; simpl; [now rewrite E|reflexivity].
Qed.

Lemma allOf_takeWhile_sub (p q : ascii -> bool) (s : string) :
  allOf q s = true -> allOf q (takeWhile p s) = true.
Proof.
  induction s as [|c r IH]; simpl; [reflexivity|].
  intros H. apply andb_true_iff in H as [Hc Hr].
  destruct (p c); simpl; [now rewrite Hc, IH|reflexivity].
Qed.

Lemma allOf_removeAll (p q : ascii -> bool) (s : string) :
  allOf q s = true -> allOf q (removeAll p s) = true.
Proof.
  induction s as [|c r IH]; simpl; [reflexivity|].
  intros H. apply andb_true_iff in H as [Hc Hr].
  destruct (p c); simpl; [now apply IH|now rewrite Hc, IH].
Qed.

Lemma allOf_firstRun (p q : ascii -> bool) (s m : string) :
  allOf q s = true -> firstRun p s = Some m -> allOf q m = true.
Proof.
  induction s as [|c r IH]; simpl; [discriminate|].
  intros H. apply andb_true_iff in H as [Hc Hr].
  destruct (p c) eqn:E.
  - intros [= <-]. simpl. now rewrite Hc, allOf_takeWhile_sub.
  - now apply IH.
Qed.

Lemma firstRun_allOf (p : ascii -> bool) (s m : string) :
  firstRun p s = Some m -> allOf p m = true /\ m <> EmptyString.
Proof.
  induction s as [|c r IH]; simpl; [discriminate|].
  destruct (p c) eqn:E; [|exact IH].
  intros [= <-]. simpl. rewrite E, allOf_takeWhile. split; [reflexivity|discriminate].
Qed.

Lemma removeAll_none (p : ascii -> bool) (s : string) :
  allOf (fun c => negb (p c)) s = true -> removeAll p s = s.
Proof.
  induction s as [|c r IH]; simpl; [reflexivity|].
  intros H. apply andb_true_iff in H as [Hc Hr]. apply negb_true_iff in Hc.
  now rewrite Hc, IH.
Qed.

Lemma allOf_impl (p q : ascii -> bool) (s : string) :
  (forall c, p c = true -> q c = true) -> allOf p s = true -> allOf q s = true.
Proof.
  intros Hpq. induction s as [|c r IH]; simpl; [reflexivity|].
  intros H. apply andb_true_iff in H as [Hc Hr]. now rewrite (Hpq c Hc), IH.
Qed.

Lemma allOf_replaceFirst (s : string) :
  allOf isNumberChar s = true -> allOf isNumberChar (replaceFirst "," "." s) = true.
Proof.
  induction s as [|c r IH]; simpl; [reflexivity|].
  intros H. apply andb_true_iff in H as [Hc Hr].
  destruct (Ascii.eqb c ","); simpl; [assumption|now rewrite Hc, IH].
Qed.

Lemma allOf_app (p : ascii -> bool) (a b : string) :
  allOf p (a ++ b) = allOf p a && allOf p b.
Proof. induction a as [|c r IH]; simpl; [reflexivity|]. now rewrite IH, andb_assoc. Qed.

Lemma takeWhile_all (p : ascii -> bool) (s : string) :
  allOf p s = true -> takeWhile p s = s.
Proof.
  induction s as [|c r IH]; simpl; [reflexivity|].
  intros H. apply andb_true_iff in H as [Hc Hr]. now rewrite Hc, IH.
Qed.

Lemma dropWhile_all (p : ascii -> bool) (s : string) :
  allOf p s = true -> dropWhile p s = EmptyString.
Proof.
  induction s as [|c r IH]; simpl; [reflexivity|].
  intros H. apply andb_true_iff in H as [Hc Hr]. now rewrite Hc, IH.
Qed.

Lemma decimal_nonneg (s : string) : allOf isDigit s = true -> (0 <= decimal s)%Z.
Proof.
  intros H. apply decimalFrom_nonneg; [now apply takeWhile_all|lia].
Qed.

Lemma pow10_positive (e : Z) : 0 < pow10 e.
Proof.
  unfold pow10. destruct (Z.leb_spec 0 e) as [H|H].
  - change 0 with (inject_Z 0). rewrite <- Zlt_Qlt. now apply Z.pow_pos_nonneg.
  - apply Qinv_lt_0_compat. change 0 with (inject_Z 0). rewrite <- Zlt_Qlt.
    apply Z.pow_pos_nonneg; lia.
Qed.

(** [parseFloat] gives [NaN] or a number, and no negative number when it
    reads no minus sign. *)
Lemma parseFloat_cases (s : string) :
  parseFloat s = NaN
  \/ exists q, parseFloat s = Num q
               /\ (fst (readSign (dropWhile isWhiteSpace s)) = false -> 0 <= q).
Proof.
  unfold parseFloat.
  destruct (readSign (dropWhile isWhiteSpace s)) as [negative s1].
  set (int := takeWhile isDigit s1).
  destruct (match dropWhile isDigit s1 with
            | String c r =>
                if Ascii.eqb c "." then (takeWhile isDigit r, dropWhile isDigit r)
                else (EmptyString, dropWhile isDigit s1)
            | EmptyString => (EmptyString, dropWhile isDigit s1)
            end) as [frac s2] eqn:E.
  assert (Hfrac : allOf isDigit frac = true).
  { destruct (dropWhile isDigit s1) as [|c r]; [now injection E as <- _|].
    destruct (Ascii.eqb c "."); injection E as <- _; [apply allOf_takeWhile|reflexivity]. }
  destruct (String.eqb int EmptyString && String.eqb frac EmptyString); [now left|].
  right. eexists. split; [reflexivity|]. cbn [fst]. intros ->. unfold signed.
  apply Qmult_le_0_compat; [|apply Qlt_le_weak, pow10_positive].
  change 0 with (inject_Z 0). rewrite <- Zle_Qle. apply decimal_nonneg.
  rewrite allOf_app, Hfrac. unfold int. now rewrite allOf_takeWhile.
Qed.

(** X17.  [parsePrice] never returns [NaN] (or [undefined]): it returns
    [null] or a number. *)
Theorem parsePrice_null_or_number (raw : option string) :
  parsePrice raw = Null \/ exists q, parsePrice raw = Num q.
Proof.
  unfold parsePrice. destruct raw as [raw|]; [|now left].
  destruct (String.eqb raw EmptyString); [now left|]. cbv zeta.
  destruct (parseFloat_cases (trim (replaceAll "," "." (removeAll (Ascii.eqb ".") raw))))
    as [->|(q & -> & _)]; [now left|right; now exists q].
Qed.

Lemma numberChar_not_space (c : ascii) : isNumberChar c = true -> isWhiteSpace c = false.
Proof.
  unfold isNumberChar. intros H.
  apply orb_true_iff in H as [H|H]; [apply orb_true_iff in H as [H|H]|].
  - destruct (isWhiteSpace c) eqn:E; [|reflexivity]. exfalso. revert H E.
    unfold isDigit, isWhiteSpace. generalize (N_of_ascii c) as n. intros n H1 H2.
    apply andb_true_iff in H1 as [H1 H1']. apply N.leb_le in H1, H1'.
    apply orb_true_iff in H2 as [H2|H2]; [apply orb_true_iff in H2 as [H2|H2]|].
    + apply andb_true_iff in H2 as [_ H2]. apply N.leb_le in H2. lia.
    + apply N.eqb_eq in H2. lia.
    + apply N.eqb_eq in H2. lia.
  - apply Ascii.eqb_eq in H as ->. reflexivity.
  - apply Ascii.eqb_eq in H as ->. reflexivity.
Qed.

Lemma numberChar_not_sign (c : ascii) :
  isNumberChar c = true -> Ascii.eqb c "-" = false /\ Ascii.eqb c "+" = false.
Proof.
  intros H. split.
  - destruct (Ascii.eqb_spec c "-") as [->|]; [discriminate|reflexivity].
  - destruct (Ascii.eqb_spec c "+") as [->|]; [discriminate|reflexivity].
Qed.

Lemma token_unsigned (s : string) :
  allOf isNumberChar s = true -> fst (readSign (dropWhile isWhiteSpace s)) = false.
Proof.
  destruct s as [|c r]; [reflexivity|]. simpl.
  intros H. apply andb_true_iff in H as [Hc _].
  rewrite (numberChar_not_space c Hc). simpl.
  destruct (numberChar_not_sign c Hc) as [-> ->]. reflexivity.
Qed.

Lemma parseFloat_token (s : string) :
  allOf isNumberChar s = true -> notNegative (parseFloat s).
Proof.
  intros H. destruct (parseFloat_cases s) as [->|(q & -> & Hq)].
  - right. now left.
  - right. right. exists q. split; [reflexivity|]. apply Hq. now apply token_unsigned.
Qed.

(** X18.  [parseSqm] and [parsePricePerSqm] never return a negative number:
    a sign in the text is not part of the token they read. *)
Theorem parseSqm_never_negative (text : string) :
  notNegative (parseSqm text) /\ notNegative (parsePricePerSqm text).
Proof.
  unfold parseSqm, parsePricePerSqm.
  destruct (String.eqb text EmptyString); [split; now left|].
  destruct (firstRun isNumberChar (removeAll isWhiteSpace text)) as [m|] eqn:E;
    [|split; now left].
  apply firstRun_allOf in E as [Hm _]. split; apply parseFloat_token.
  - now apply allOf_replaceFirst.
  - now apply allOf_replaceFirst, allOf_removeAll.
Qed.

(** X19.  [parsePricePerSqm] and [parseSqm] return [null] on the same
    texts, and the same value on every text without a point: they differ
    only in that [parsePricePerSqm] takes the points of the token for
    grouping and drops them. *)
Theorem parsePricePerSqm_parseSqm (text : string) :
  (parsePricePerSqm text = Null <-> parseSqm text = Null)
  /\ (allOf (fun c => negb (Ascii.eqb "." c)) text = true ->
      parsePricePerSqm text = parseSqm text).
Proof.
  unfold parseSqm, parsePricePerSqm.
  destruct (String.eqb text EmptyString); [split; [tauto|reflexivity]|].
  destruct (firstRun isNumberChar (removeAll isWhiteSpace text)) as [m|] eqn:E;
    [|split; [tauto|reflexivity]].
  split.
  - split; intros H; now apply parseFloat_not_null in H.
  - intros Hdot. rewrite removeAll_none; [reflexivity|].
    eapply allOf_firstRun; [|exact E]. now apply allOf_removeAll.
Qed.

Lemma parsePricePerSqm_parseSqm_witness :
  parsePricePerSqm "850 EUR/m2" = parseSqm "850 EUR/m2".
Proof.
  exact (proj2 (parsePricePerSqm_parseSqm "850 EUR/m2") eq_refl).
Defined.

Lemma reverse_reverse (s a b : string) :
  reverse a (reverse b s) = reverse (s ++ a) b.
Proof.
  revert a b. induction s as [|c r IH]; intros a b; simpl; [reflexivity|].
  now rewrite IH.
Qed.

Lemma allOf_reverse (p : ascii -> bool) (s acc : string) :
  allOf p (reverse acc s) = allOf p acc && allOf p s.
Proof.
  revert acc. induction s as [|c r IH]; intros acc; simpl.
  - now rewrite andb_true_r.
  - rewrite IH. simpl. destruct (p c), (allOf p acc), (allOf p r); reflexivity.
Qed.

Lemma app_empty (s : string) : (s ++ EmptyString)%string = s.
Proof.
  induction s as [|c r IH]; [reflexivity|].
  change (String c (r ++ EmptyString)%string = String c r). now rewrite IH.
Qed.

Lemma digit_numberChar (c : ascii) : isDigit c = true -> isNumberChar c = true.
Proof. unfold isNumberChar. now intros ->. Qed.

Lemma dropWhile_space_digits (s : string) :
  allOf isDigit s = true -> dropWhile isWhiteSpace s = s.
Proof.
  destruct s as [|c r]; [reflexivity|]. simpl. intros H.
  apply andb_true_iff in H as [Hc _].
  now rewrite (numberChar_not_space c (digit_numberChar c Hc)).
Qed.

Lemma trim_digits (s : string) : allOf isDigit s = true -> trim s = s.
Proof.
  intros H. unfold trim. rewrite (dropWhile_space_digits s H).
  rewrite dropWhile_space_digits by now rewrite allOf_reverse.
  now rewrite reverse_reverse, app_empty.
Qed.

Lemma replaceAll_digits (s : string) :
  allOf isDigit s = true -> replaceAll "," "." s = s.
Proof.
  induction s as [|c r IH]; simpl; [reflexivity|]. intros H.
  apply andb_true_iff in H as [Hc Hr]. rewrite (IH Hr).
  destruct (Ascii.eqb_spec c ",") as [->|]; [discriminate|reflexivity].
Qed.

Lemma removeAll_grouped (s : string) :
  groupedDigits s = true -> allOf isDigit (removeAll (Ascii.eqb ".") s) = true.
Proof.
  unfold groupedDigits. induction s as [|c r IH]; [reflexivity|].
  cbn [allOf removeAll]. intros H. apply andb_true_iff in H as [Hc Hr].
  destruct (Ascii.eqb "." c) eqn:E; [now apply IH|].
  rewrite orb_false_r in Hc. cbn [allOf]. now rewrite Hc, IH.
Qed.

Lemma parseFloat_digits (s : string) :
  allOf isDigit s = true -> s <> EmptyString ->
  exists q, parseFloat s = Num q /\ q == inject_Z (decimal s).
Proof.
  intros H Hne. unfold parseFloat. rewrite (dropWhile_space_digits s H).
  assert (Hsign : readSign s = (false, s)).
  { destruct s as [|c r]; [reflexivity|]. simpl in H |- *.
    apply andb_true_iff in H as [Hc _].
    now destruct (numberChar_not_sign c (digit_numberChar c Hc)) as [-> ->]. }
  rewrite Hsign, (takeWhile_all _ _ H), (dropWhile_all _ _ H).
  destruct s as [|c r]; [contradiction|]. cbn [String.eqb andb].
  destruct (Ascii.eqb c c); cbn [andb];
  rewrite app_empty; eexists; (split; [reflexivity|]);
  cbn [readExponent String.length Z.of_nat Z.sub Z.opp Z.add signed];
  change (pow10 (0 - Z.of_nat 0)) with 1; apply Qmult_1_r.
Qed.

(** X20.  On digits grouped by points, with at least one digit, that spell
    an integer below 2^53, [parsePrice] returns the number the digits spell
    in decimal: the points are dropped, none is read as a decimal point. *)
Theorem parsePrice_grouped_digits (s : string) :
  groupedDigits s = true -> removeAll (Ascii.eqb ".") s <> EmptyString ->
  safeInteger (decimal (removeAll (Ascii.eqb ".") s)) ->
  exists q, parsePrice (Some s) = Num q
            /\ q == inject_Z (decimal (removeAll (Ascii.eqb ".") s)).
Proof.
  intros H Hne _. unfold parsePrice.
  destruct (String.eqb_spec s EmptyString) as [->|_]; [now contradiction Hne|].
  cbv zeta. pose proof (removeAll_grouped s H) as Hd.
  rewrite (replaceAll_digits _ Hd), (trim_digits _ Hd).
  destruct (parseFloat_digits _ Hd Hne) as (q & -> & Hq). now exists q.
Qed.

Lemma parsePrice_grouped_digits_witness :
  exists q, parsePrice (Some "125.000") = Num q /\ q == 125000.
Proof.
  destruct (parsePrice_grouped_digits "125.000" eq_refl ltac:(discriminate) eq_refl)
    as (q & E & Hq).
  exists q. split; [exact E|exact Hq].
Defined.

End ParserFacts.

(** ** The listing a page element gives *)

Section EmitFacts.
Import JS Crawl.

(** X21.  The callback of [parseListings] pushes a listing unless the title
    is empty and the price is falsy.  The listing carries the price as
    parsed; its price per m² is the one of the page when that is truthy or
    when the price is falsy or the area is not above zero, and otherwise an
    integer that is the floor or the ceiling of price / area (the quotient
    itself when it is an integer) and is nearest to it, up to the rounding
    of the quotient, for binary64 values of the price and the area and a
    quotient below 2^53. *)
Theorem emitListing_result (id title link : string) (price pps sqm landSqm : value)
    (rooms : option string) (imgSrc : string) (imgCount : Z) (location : string)
    (n : Neighborhood) :
  let out := emitListing id title link price pps sqm landSqm rooms imgSrc imgCount
               location n in
  (out = None <-> title = EmptyString /\ truthy price = false)
  /\ (forall l, out = Some l ->
        Listing.price l = price
        /\ (truthy pps = true -> Listing.pricePerSqm l = pps)
        /\ (truthy price = false \/ gt sqm (Num 0) = false -> Listing.pricePerSqm l = pps)
        /\ (forall p s, truthy pps = false -> price = Num p -> sqm = Num s ->
            binary64 p -> binary64 s ->
            ~ p == 0 -> 0 < s -> Qabs (p / s) < inject_Z (2 ^ 53) ->
            exists k : Z,
              Listing.pricePerSqm l = Num (inject_Z k)
              /\ (Qfloor (p / s) <= k <= Qceiling (p / s))%Z
              /\ Qabs (inject_Z k - p / s) <= (1 # 2) + Qabs (p / s) * (1 # 2 ^ 53))).
Proof.
  cbv zeta. unfold emitListing. split.
  - unfold nonEmpty. destruct (String.eqb_spec title EmptyString) as [->|Hne];
      destruct (truthy price); cbn [negb orb]; split;
      solve [discriminate | tauto | now intros [_ ?] | now intros [? _]].
  - intros l. destruct (nonEmpty title || truthy price); [|discriminate].
    intros [= <-]. cbn [Listing.price Listing.pricePerSqm].
    split; [reflexivity|]. split; [|split].
    + now intros ->.
    + intros [->|H]; [now rewrite andb_false_r|]. rewrite H. now rewrite andb_false_r.
    + intros p s Hpps -> -> _ _ Hp Hs _. rewrite Hpps. cbn [negb andb truthy].
      assert (E1 : Qeq_bool p 0 = false).
      { destruct (Qeq_bool p 0) eqn:E; [|reflexivity]. apply Qeq_bool_eq in E. contradiction. }
      assert (E2 : Qeq_bool s 0 = false).
      { destruct (Qeq_bool s 0) eqn:E; [|reflexivity]. apply Qeq_bool_eq in E. lra. }
      assert (E3 : gt (Num s) (Num 0) = true).
      { unfold gt, lt. cbn [toNumber]. now apply Qltb_lt. }
      rewrite E1, E2, E3. cbn [negb andb]. unfold div, round. cbn [toNumber].
      rewrite E2. cbn [toNumber]. eexists. split; [reflexivity|].
      set (x := p / s).
      pose proof (Qfloor_le (x + (1 # 2))) as Hf.
      pose proof (Qlt_floor (x + (1 # 2))) as Hu.
      rewrite inject_Z_plus in Hu. change (inject_Z 1) with 1 in Hu.
      split; [split|].
      * assert (Hlo : x <= x + (1 # 2)) by lra. now apply Qfloor_resp_le in Hlo.
      * pose proof (Qle_ceiling x) as Hc.
        assert (Hlt : inject_Z (Qfloor (x + (1 # 2))) < inject_Z (Qceiling x + 1)).
        { rewrite inject_Z_plus. change (inject_Z 1) with 1. lra. }
        rewrite <- Zlt_Qlt in Hlt. lia.
      * assert (Ht : 0 <= Qabs x * (1 # 2 ^ 53)).
        { apply Qmult_le_0_compat; [apply Qabs_nonneg|discriminate]. }
        apply Qabs_Qle_condition. split; lra.
Qed.

Lemma emitListing_result_witness :
  exists k : Z,
    (Listing.pricePerSqm <$>
       emitListing "7" "Kuca" EmptyString (Num 100000) Null (Num 80) Null None
         EmptyString 0 EmptyString (mkNeighborhood "Grocka" "beograd-grocka"))
    = Some (Num (inject_Z k))
    /\ (Qfloor (100000 / 80) <= k <= Qceiling (100000 / 80))%Z
    /\ Qabs (inject_Z k - 100000 / 80) <= (1 # 2) + Qabs (100000 / 80) * (1 # 2 ^ 53).
Proof.
  destruct (proj2 (emitListing_result "7" "Kuca" EmptyString (Num 100000) Null (Num 80)
                     Null None EmptyString 0 EmptyString
                     (mkNeighborhood "Grocka" "beograd-grocka")) _ eq_refl)
    as (_ & _ & _ & H).
  destruct (H 100000 80 eq_refl eq_refl eq_refl
              (binary64_integer 100000 eq_refl) (binary64_integer 80 eq_refl)
              ltac:(discriminate) ltac:(reflexivity) ltac:(reflexivity))
    as (k & E & Hk).
  exists k. split; [|exact Hk]. cbn [fmap option_fmap option_map]. now rewrite <- E.
Defined.

End EmitFacts.
